(** * claudeFormat.js: conversion of Antigravity responses to the Claude format

    A shallow embedding of [src/utils/claudeFormat.js]: the non-streaming
    conversion [antigravityToClaudeResponse] and the streaming handler
    [ClaudeStreamHandler], with theorems about the events the handler writes
    and the content blocks the conversion builds.

    Strings.  A JavaScript string is modelled as a [string] whose characters
    are the code units U+0000..U+00FF.  On this range the white space of
    [String.prototype.trim] and of the regular expression class [\s] is
    TAB, LF, VT, FF, CR, SPACE and NBSP.

    The development also covers the serialisation of the events
    ([createClaudeStreamEvent], with [JSON.stringify] on the objects that the
    source builds) and, from [test/test-cc.js], the loop of [testStream] that
    reads the events back and [fetchWithRetry].  The reading loop is modelled
    on the decoded chunks: what [TextDecoder] gives, chunk by chunk, is a cut
    of the text that was sent. *)

From Stdlib Require Import ZArith String Ascii Lia.
From stdpp Require Import gmap strings list.
From Stdlib Require DecimalString.

Open Scope string_scope.
Open Scope list_scope.

(** Concatenation of strings unfolds on a constructor, as that of lists. *)
#[global] Arguments String.append !s1 s2.

(** ** String primitives of JavaScript used by the source *)

Module JsString.

(** The tests [if (s)] and [if (!s)] on a string: every string but the
    empty one is truthy. *)
Definition truthy (s : string) : bool :=
  match s with
  | EmptyString => false
  | String _ _ => true
  end.

Fixpoint drop (n : nat) (s : string) : string :=
  match n, s with
  | O, _ => s
  | S _, EmptyString => EmptyString
  | S n', String _ s' => drop n' s'
  end.

Fixpoint take (n : nat) (s : string) : string :=
  match n, s with
  | O, _ => EmptyString
  | S _, EmptyString => EmptyString
  | S n', String c s' => String c (take n' s')
  end.

(** [s.indexOf(pat)]: the position of the first occurrence of [pat]. *)
Fixpoint index_of (pat s : string) : option nat :=
  if String.prefix pat s then Some O
  else match s with
       | EmptyString => None
       | String _ s' => option_map S (index_of pat s')
       end.

(** [s.includes(pat)]. *)
Definition includes (pat s : string) : bool :=
  match index_of pat s with
  | Some _ => true
  | None => false
  end.

(** [s.replace(pat, rep)] with a string pattern: only the first occurrence
    is replaced.  Every replacement in the source is the empty string, which
    holds no [$] pattern. *)
Definition replace_first (pat rep s : string) : string :=
  match index_of pat s with
  | Some i => take i s +:+ rep +:+ drop (i + String.length pat) s
  | None => s
  end.

Definition LF : ascii := "010"%char.

(** [s.replace(/\n$/, '')]: without the [m] flag [$] is the end of the
    input, so one final line feed is removed, if there is one. *)
Fixpoint strip_final_newline (s : string) : string :=
  match s with
  | EmptyString => EmptyString
  | String c EmptyString => if Ascii.eqb c LF then EmptyString else s
  | String c s' => String c (strip_final_newline s')
  end.

(** White space and line terminators among the code units below 256. *)
Definition is_space (c : ascii) : bool :=
  let n := nat_of_ascii c in
  (Nat.leb 9 n && Nat.leb n 13) || Nat.eqb n 32 || Nat.eqb n 160.

(** [s.trimStart()], which is also what a greedy [\s*] consumes. *)
Fixpoint trim_start (s : string) : string :=
  match s with
  | EmptyString => EmptyString
  | String c s' => if is_space c then trim_start s' else s
  end.

(** [s.trimEnd()]. *)
Fixpoint trim_end (s : string) : string :=
  match s with
  | EmptyString => EmptyString
  | String c s' =>
      match trim_end s' with
      | EmptyString => if is_space c then EmptyString else String c EmptyString
      | t => String c t
      end
  end.

(** [s.trim()]. *)
Definition trim (s : string) : string := trim_end (trim_start s).

Definition all_space (s : string) : bool :=
  forallb is_space (list_ascii_of_string s).

Definition first_char (s : string) : option ascii :=
  match s with
  | EmptyString => None
  | String c _ => Some c
  end.

Fixpoint last_char (s : string) : option ascii :=
  match s with
  | EmptyString => None
  | String c EmptyString => Some c
  | String _ s' => last_char s'
  end.

(** [fragments.join('')]: the text a list of fragments was cut from. *)
Fixpoint join (l : list string) : string :=
  match l with
  | [] => EmptyString
  | x :: l' => x +:+ join l'
  end.

(** The proper suffixes of [s], the longest first. *)
Fixpoint tails (s : string) : list string :=
  match s with
  | EmptyString => []
  | String _ s' => s' :: tails s'
  end.

(** No end of [p] (other than [p] itself) begins [m]: an occurrence of [p]
    cannot start in the text in front of [m] and finish inside [m]. *)
Definition no_overlap (p m : string) : bool :=
  forallb (fun v => negb (truthy v && String.prefix v m)) (tails p).

End JsString.

Import JsString.

(** The two markers of a reasoning segment. *)
Definition think_open : string := "<think>".
Definition think_close : string := "</think>".

(** A usage object is a map from property names to integers; a property
    that is missing reads [undefined].  [x || 0] on such a property: [x]
    unless it is [undefined] or zero. *)
Definition or_zero (x : option Z) : Z :=
  match x with
  | Some n => if Z.eqb n 0 then 0%Z else n
  | None => 0%Z
  end.

(** ** Non-streaming conversion *)

Module NonStream.

(** The lazy tail [([\s\S]*?)<\/think>] of both regular expressions, run at
    the position after [<think>]: the capture grows one character at a time
    until the closing marker follows it.  The result is the capture and the
    text after the closing marker. *)
Fixpoint lazy_until_close (s : string) : option (string * string) :=
  if String.prefix think_close s
  then Some (EmptyString, drop (String.length think_close) s)
  else match s with
       | EmptyString => None
       | String c s' =>
           match lazy_until_close s' with
           | Some (cap, rest) => Some (String c cap, rest)
           | None => None
           end
       end.

(** The match of [/<think>([\s\S]*?)<\/think>/] anchored at the start of
    [s]. *)
Definition match_here (s : string) : option (string * string) :=
  if String.prefix think_open s
  then lazy_until_close (drop (String.length think_open) s)
  else None.

Record think_match := {
  before : string;      (* the text in front of the match *)
  capture : string;     (* group 1 *)
  after : string        (* the text behind the match *)
}.

(** [content.match(/<think>([\s\S]*?)<\/think>/)]: start positions are
    tried from left to right, the first one with a match wins. *)
Fixpoint think_regex_exec (s : string) : option think_match :=
  match match_here s with
  | Some (cap, rest) =>
      Some {| before := EmptyString; capture := cap; after := rest |}
  | None =>
      match s with
      | EmptyString => None
      | String c s' =>
          match think_regex_exec s' with
          | Some m => Some {| before := String c (before m);
                              capture := capture m; after := after m |}
          | None => None
          end
      end
  end.

Record content_block := { type : string; text : string }.

Record usage_out := { input_tokens : Z; output_tokens : Z }.

Record response := {
  id : string;
  rtype : string;
  role : string;
  content : list content_block;
  model : string;
  stop_reason : string;
  stop_sequence : option string;
  usage : option usage_out
}.

Definition text_block (t : string) : content_block :=
  {| type := "text"; text := t |}.

(** [content.replace(/<think>[\s\S]*?<\/think>\s*/, '')]: the same leftmost
    match, extended by the white space that follows it, is cut out. *)
Definition think_regex_remove (s : string) : string :=
  match think_regex_exec s with
  | Some m => before m +:+ trim_start (after m)
  | None => s
  end.

(** The content array built by [antigravityToClaudeResponse]. *)
Definition content_blocks (content : string) : list content_block :=
  let '(thinkingContent, mainContent) :=
    match think_regex_exec content with
    | Some thinkMatch =>
        (trim (capture thinkMatch), trim (think_regex_remove content))
    | None => (EmptyString, content)
    end in
  let blocks1 :=
    if truthy thinkingContent then [text_block thinkingContent] else [] in
  let blocks2 :=
    if truthy mainContent then blocks1 ++ [text_block mainContent] else blocks1 in
  match blocks2 with
  | [] => [text_block EmptyString]
  | _ :: _ => blocks2
  end.

(** [antigravityToClaudeResponse(content, model, usage)]; [messageId] stands
    for [`msg_${generateRequestId()}`], whose generator is imported from
    another file. *)
Definition antigravityToClaudeResponse
    (messageId content model : string) (usage : option (gmap string Z)) : response :=
  {| id := messageId;
     rtype := "message";
     role := "assistant";
     content := content_blocks content;
     model := model;
     stop_reason := "end_turn";
     stop_sequence := None;
     usage := match usage with
              | Some u => Some {| input_tokens := or_zero (u !! "prompt_tokens");
                                  output_tokens := or_zero (u !! "completion_tokens") |}
              | None => None
              end |}.

End NonStream.

(** ** The streaming handler *)

Module Stream.

(** The [data] argument of [writeClaudeStreamEvent]; the event name passed
    with it is always its [type] field.  Of each payload the fields that vary
    or that a theorem speaks of are kept; the others are constants of the
    source ([role], [content: []], the [null] stop fields, [text_delta]). *)
Inductive event :=
| MessageStart (id model : string) (input_tokens output_tokens : Z)
| ContentBlockStart (index : Z) (text : string)
| ContentBlockDelta (index : Z) (text : string)
| ContentBlockStop (index : Z)
| MessageDelta (stop_reason : string) (output_tokens : Z)
| MessageStop.

Definition event_type (e : event) : string :=
  match e with
  | MessageStart _ _ _ _ => "message_start"
  | ContentBlockStart _ _ => "content_block_start"
  | ContentBlockDelta _ _ => "content_block_delta"
  | ContentBlockStop _ => "content_block_stop"
  | MessageDelta _ _ => "message_delta"
  | MessageStop => "message_stop"
  end.

(** The calls the handler makes on its response object [res], in order:
    [res.write(createClaudeStreamEvent(type, data))] and [res.end()]. *)
Inductive sink_call :=
| Write (e : event)
| End.

(** The fields of a [ClaudeStreamHandler]; [res] is the log of the calls
    made on the response object so far. *)
Record handler := {
  res : list sink_call;
  messageId : string;
  model : string;
  contentIndex : Z;
  hasStarted : bool;
  thinkingBuffer : string;
  inThinking : bool;
  hasContent : bool;
  totalInputTokens : Z;
  totalOutputTokens : Z
}.

Definition constructor (res : list sink_call) (messageId model : string) : handler :=
  {| res := res; messageId := messageId; model := model;
     contentIndex := 0; hasStarted := false;
     thinkingBuffer := EmptyString; inThinking := false; hasContent := false;
     totalInputTokens := 0; totalOutputTokens := 0 |}.

Definition set_res (h : handler) (r : list sink_call) : handler :=
  {| res := r; messageId := messageId h; model := model h;
     contentIndex := contentIndex h; hasStarted := hasStarted h;
     thinkingBuffer := thinkingBuffer h; inThinking := inThinking h;
     hasContent := hasContent h;
     totalInputTokens := totalInputTokens h;
     totalOutputTokens := totalOutputTokens h |}.

Definition set_hasStarted (h : handler) (b : bool) : handler :=
  {| res := res h; messageId := messageId h; model := model h;
     contentIndex := contentIndex h; hasStarted := b;
     thinkingBuffer := thinkingBuffer h; inThinking := inThinking h;
     hasContent := hasContent h;
     totalInputTokens := totalInputTokens h;
     totalOutputTokens := totalOutputTokens h |}.

Definition set_thinking (h : handler) (buf : string) (b : bool) : handler :=
  {| res := res h; messageId := messageId h; model := model h;
     contentIndex := contentIndex h; hasStarted := hasStarted h;
     thinkingBuffer := buf; inThinking := b;
     hasContent := hasContent h;
     totalInputTokens := totalInputTokens h;
     totalOutputTokens := totalOutputTokens h |}.

Definition set_hasContent (h : handler) (b : bool) : handler :=
  {| res := res h; messageId := messageId h; model := model h;
     contentIndex := contentIndex h; hasStarted := hasStarted h;
     thinkingBuffer := thinkingBuffer h; inThinking := inThinking h;
     hasContent := b;
     totalInputTokens := totalInputTokens h;
     totalOutputTokens := totalOutputTokens h |}.

Definition set_tokens (h : handler) (i o : Z) : handler :=
  {| res := res h; messageId := messageId h; model := model h;
     contentIndex := contentIndex h; hasStarted := hasStarted h;
     thinkingBuffer := thinkingBuffer h; inThinking := inThinking h;
     hasContent := hasContent h;
     totalInputTokens := i;
     totalOutputTokens := o |}.

(** [writeClaudeStreamEvent(this.res, type, data)]. *)
Definition writeClaudeStreamEvent (h : handler) (e : event) : handler :=
  set_res h (res h ++ [Write e]).

Definition start (h : handler) : handler :=
  let h := writeClaudeStreamEvent h (MessageStart (messageId h) (model h) 0 0) in
  set_hasStarted h true.

Definition sendContentBlock (text : string) (h : handler) : handler :=
  let h :=
    if negb (hasContent h)
    then set_hasContent
           (writeClaudeStreamEvent h (ContentBlockStart (contentIndex h) EmptyString))
           true
    else h in
  writeClaudeStreamEvent h (ContentBlockDelta (contentIndex h) text).

Definition handleContent (content : string) (h : handler) : handler :=
  if includes think_open content then
    set_thinking h
      (strip_final_newline (replace_first think_open EmptyString content)) true
  else if inThinking h then
    if includes think_close content then
      let buf := thinkingBuffer h +:+
                 strip_final_newline (replace_first think_close EmptyString content) in
      let h := set_thinking h buf false in
      let h := if truthy (trim (thinkingBuffer h))
               then sendContentBlock (trim (thinkingBuffer h)) h
               else h in
      set_thinking h EmptyString (inThinking h)
    else
      set_thinking h (thinkingBuffer h +:+ content) (inThinking h)
  else if truthy content then sendContentBlock content h
  else h.

(** [usage.prompt_tokens || 0] and [usage.completion_tokens || 0]. *)
Definition handleUsage (usage : gmap string Z) (h : handler) : handler :=
  set_tokens h (or_zero (usage !! "prompt_tokens"))
               (or_zero (usage !! "completion_tokens")).

Definition end_ (h : handler) : handler :=
  let h := if inThinking h && truthy (trim (thinkingBuffer h))
           then sendContentBlock (trim (thinkingBuffer h)) h
           else h in
  let h := if hasContent h
           then writeClaudeStreamEvent h (ContentBlockStop (contentIndex h))
           else h in
  let h := writeClaudeStreamEvent h (MessageDelta "end_turn" (totalOutputTokens h)) in
  let h := writeClaudeStreamEvent h MessageStop in
  set_res h (res h ++ [End]).

(** The methods a caller can invoke on a handler. *)
Inductive op :=
| Start
| HandleContent (content : string)
| HandleUsage (usage : gmap string Z)
| EndOp.

Definition step (h : handler) (o : op) : handler :=
  match o with
  | Start => start h
  | HandleContent c => handleContent c h
  | HandleUsage u => handleUsage u h
  | EndOp => end_ h
  end.

Definition run (ops : list op) (h : handler) : handler := foldl step h ops.

(** The events written to the response object. *)
Definition events (log : list sink_call) : list event :=
  omap (fun c => match c with Write e => Some e | End => None end) log.

(** The texts of the [content_block_delta] events. *)
Definition deltas (log : list sink_call) : list string :=
  omap (fun c => match c with
                 | Write (ContentBlockDelta _ t) => Some t
                 | _ => None
                 end) log.

(** A whole response: [start()], one [handleContent] per fragment, [end()]. *)
Definition stream (messageId model : string) (fragments : list string) : handler :=
  run ([Start] ++ map HandleContent fragments ++ [EndOp])
      (constructor [] messageId model).

(** The reasoning text that [end()] still has to write: the trimmed buffer
    of an unfinished reasoning segment, unless it is empty. *)
Definition flush (h : handler) : list string :=
  if inThinking h && truthy (trim (thinkingBuffer h))
  then [trim (thinkingBuffer h)] else [].

(** A fragment that holds neither marker. *)
Definition marker_free (m : string) : Prop :=
  includes think_open m = false /\ includes think_close m = false.

(** The reasoning text of a segment cut into the opening fragment
    [<think>x0], the fragments [ms] and the closing fragment [xk</think>]. *)
Definition reasoning_text (x0 : string) (ms : list string) (xk : string) : string :=
  strip_final_newline x0 +:+ join ms +:+ strip_final_newline xk.

Definition segment (x0 : string) (ms : list string) (xk : string) (ys : list string)
  : list string :=
  (think_open +:+ x0) :: ms ++ [xk +:+ think_close] ++ ys.

(** What holds of a handler between [start()] and [end()] when only
    fragments are fed. *)
Record feeding (messageId model : string) (h : handler) : Prop := {
  feeding_index : contentIndex h = 0%Z;
  feeding_tokens : totalOutputTokens h = 0%Z;
  feeding_opened :
    hasContent h = match deltas (res h) with [] => false | _ :: _ => true end;
  feeding_events :
    events (res h) =
    MessageStart messageId model 0 0
    :: (if hasContent h
        then ContentBlockStart 0 "" :: map (ContentBlockDelta 0) (deltas (res h))
        else [])
}.

(** The content block of a finished response: opened once when there is a
    delta, closed after the last one. *)
Definition block (index : Z) (texts : list string) : list event :=
  match texts with
  | [] => []
  | _ :: _ =>
      ContentBlockStart index EmptyString
      :: map (ContentBlockDelta index) texts ++ [ContentBlockStop index]
  end.

(** The handler with another count of input tokens. *)
Definition set_input (n : Z) (h : handler) : handler :=
  set_tokens h n (totalOutputTokens h).

(** The call with the [prompt_tokens] property of its usage object removed. *)
Definition without_prompt (o : op) : op :=
  match o with
  | HandleUsage u => HandleUsage (delete "prompt_tokens" u)
  | _ => o
  end.

(** The usage carried by a [message_start] event is zero. *)
Definition zero_start (e : event) : Prop :=
  match e with
  | MessageStart _ _ i o => i = 0%Z /\ o = 0%Z
  | _ => True
  end.

(** Every [message_start] written to the log carries the usage zero. *)
Definition zero_starts (log : list sink_call) : Prop :=
  Forall zero_start (events log).

(** The names of the events of a response with [n] deltas, in order. *)
Definition shape (n : nat) : list string :=
  "message_start"
  :: match n with
     | O => []
     | S _ => "content_block_start"
              :: replicate n "content_block_delta" ++ ["content_block_stop"]
     end
  ++ ["message_delta"; "message_stop"].

End Stream.

(** ** What the log of a handler shows *)

Module StreamObs.
Import Stream.

(** The events that open the content block or append to it. *)
Definition opens_or_appends (e : event) : bool :=
  match e with
  | ContentBlockStart _ _ | ContentBlockDelta _ _ => true
  | _ => false
  end.

(** A [content_block_stop] for the block of index zero, or another event. *)
Definition stops_block_zero (e : event) : Prop :=
  match e with
  | ContentBlockStop i => i = 0%Z
  | _ => True
  end.

(** Events that neither open the block nor append to it, written for a
    handler whose block has the index [ci]. *)
Definition neutral (ci : Z) (e : event) : Prop :=
  match e with
  | ContentBlockStart _ _ | ContentBlockDelta _ _ => False
  | ContentBlockStop i => i = ci
  | _ => True
  end.

(** What holds of every handler reached from a new one. *)
Record reached (h : handler) : Prop := {
  reached_index : contentIndex h = 0%Z;
  reached_buffer : thinkingBuffer h = EmptyString \/ inThinking h = true;
  reached_opened :
    hasContent h = match deltas (res h) with [] => false | _ :: _ => true end;
  reached_block :
    List.filter opens_or_appends (events (res h)) =
    if hasContent h
    then ContentBlockStart 0 EmptyString
         :: map (ContentBlockDelta 0) (deltas (res h))
    else [];
  reached_deltas : Forall (fun t => truthy t = true) (deltas (res h));
  reached_stops : Forall stops_block_zero (events (res h))
}.

End StreamObs.

(** ** Serialisation of the events *)

Module Sse.
Import Stream.

(** The values that the source passes to [JSON.stringify]: [null], integers,
    strings, arrays and objects with their properties in the order of the
    object literal. *)
#[local] Unset Elimination Schemes.
Inductive json :=
| JNull
| JNumber (n : Z)
| JString (s : string)
| JArray (items : list json)
| JObject (properties : list (string * json)).
#[local] Set Elimination Schemes.

(** An integer as [JSON.stringify] prints it: in decimal, with a minus sign
    when negative (the integers that a JavaScript number holds exactly). *)
Definition number_to_string (n : Z) : string :=
  DecimalString.NilZero.string_of_int (Z.to_int n).

Definition double_quote : ascii := "034"%char.
Definition backslash : ascii := "092"%char.

Definition hex_digit (n : nat) : ascii :=
  match String.get n "0123456789abcdef" with
  | Some c => c
  | None => "0"%char
  end.

Definition hex_value (c : ascii) : nat :=
  let n := nat_of_ascii c in
  if Nat.leb 97 n then n - 87 else n - 48.

(** One code unit in a JSON string: the quote, the backslash and the
    control characters are escaped, the latter by their short form or as
    [\u00XX]. *)
Definition escape_char (c : ascii) : string :=
  let n := nat_of_ascii c in
  if Nat.eqb n 8 then String backslash "b"
  else if Nat.eqb n 9 then String backslash "t"
  else if Nat.eqb n 10 then String backslash "n"
  else if Nat.eqb n 12 then String backslash "f"
  else if Nat.eqb n 13 then String backslash "r"
  else if Nat.eqb n 34 then String backslash (String double_quote EmptyString)
  else if Nat.eqb n 92 then String backslash (String backslash EmptyString)
  else if Nat.ltb n 32
       then String backslash
              ("u00" +:+ String (hex_digit (n / 16))
                           (String (hex_digit (n mod 16)) EmptyString))
       else String c EmptyString.

Fixpoint escape (s : string) : string :=
  match s with
  | EmptyString => EmptyString
  | String c s' => escape_char c +:+ escape s'
  end.

Definition quote (s : string) : string :=
  String double_quote (escape s +:+ String double_quote EmptyString).

Fixpoint commas (l : list string) : string :=
  match l with
  | [] => EmptyString
  | [x] => x
  | x :: l' => x +:+ "," +:+ commas l'
  end.

(** [JSON.stringify(data)], without indentation. *)
Fixpoint stringify (j : json) : string :=
  match j with
  | JNull => "null"
  | JNumber n => number_to_string n
  | JString s => quote s
  | JArray items => "[" +:+ commas (map stringify items) +:+ "]"
  | JObject properties =>
      "{" +:+ commas (map (fun kv => quote (fst kv) +:+ ":" +:+ stringify (snd kv))
                          properties) +:+ "}"
  end.

(** The object literal passed as [data] for each event. *)
Definition data_of (e : event) : json :=
  match e with
  | MessageStart id model input_tokens output_tokens =>
      JObject [("type", JString "message_start");
               ("message", JObject [
                  ("id", JString id);
                  ("type", JString "message");
                  ("role", JString "assistant");
                  ("content", JArray []);
                  ("model", JString model);
                  ("stop_reason", JNull);
                  ("stop_sequence", JNull);
                  ("usage", JObject [("input_tokens", JNumber input_tokens);
                                     ("output_tokens", JNumber output_tokens)])])]
  | ContentBlockStart index text =>
      JObject [("type", JString "content_block_start");
               ("index", JNumber index);
               ("content_block", JObject [("type", JString "text");
                                          ("text", JString text)])]
  | ContentBlockDelta index text =>
      JObject [("type", JString "content_block_delta");
               ("index", JNumber index);
               ("delta", JObject [("type", JString "text_delta");
                                  ("text", JString text)])]
  | ContentBlockStop index =>
      JObject [("type", JString "content_block_stop");
               ("index", JNumber index)]
  | MessageDelta stop_reason output_tokens =>
      JObject [("type", JString "message_delta");
               ("delta", JObject [("stop_reason", JString stop_reason);
                                  ("stop_sequence", JNull)]);
               ("usage", JObject [("output_tokens", JNumber output_tokens)])]
  | MessageStop =>
      JObject [("type", JString "message_stop")]
  end.

(** Reading the escapes of a JSON string back, as a JSON parser does; it is
    used to show that [escape] loses nothing. *)
Fixpoint unescape (s : string) : string :=
  match s with
  | EmptyString => EmptyString
  | String c rest =>
      if Ascii.eqb c backslash then
        match rest with
        | EmptyString => String c EmptyString
        | String k rest1 =>
            if Ascii.eqb k "b" then String "008" (unescape rest1)
            else if Ascii.eqb k "t" then String "009" (unescape rest1)
            else if Ascii.eqb k "n" then String "010" (unescape rest1)
            else if Ascii.eqb k "f" then String "012" (unescape rest1)
            else if Ascii.eqb k "r" then String "013" (unescape rest1)
            else if Ascii.eqb k "u" then
              match rest1 with
              | String _ (String _ (String h1 (String h2 rest2))) =>
                  String (ascii_of_nat (16 * hex_value h1 + hex_value h2))
                         (unescape rest2)
              | _ => String k (unescape rest1)
              end
            else String k (unescape rest1)
        end
      else String c (unescape rest)
  end.

(** The two lines of an event, without the blank line that ends it. *)
Definition event_lines (eventType : string) (data : json) : string :=
  "event: " +:+ eventType +:+ String LF ("data: " +:+ stringify data).

Definition blank_line : string := String LF (String LF EmptyString).

(** [createClaudeStreamEvent(eventType, data)]:
    [`event: ${eventType}\ndata: ${JSON.stringify(data)}\n\n`]. *)
Definition createClaudeStreamEvent (eventType : string) (data : json) : string :=
  event_lines eventType data +:+ blank_line.

(** The text that a call on the response object sends: the argument of
    [res.write], nothing for [res.end()]. *)
Definition sent (c : sink_call) : string :=
  match c with
  | Write e => createClaudeStreamEvent (event_type e) (data_of e)
  | End => EmptyString
  end.

(** What is sent for a delta in front of its escaped text. *)
Definition delta_head (index : Z) : string :=
  "event: content_block_delta" +:+ String LF
    ("data: {" +:+ quote "type" +:+ ":" +:+ quote "content_block_delta" +:+ ","
     +:+ quote "index" +:+ ":" +:+ number_to_string index +:+ ","
     +:+ quote "delta" +:+ ":{" +:+ quote "type" +:+ ":" +:+ quote "text_delta" +:+ ","
     +:+ quote "text" +:+ ":" +:+ String double_quote "").

(** All the text sent by the calls of a log. *)
Definition wire (log : list sink_call) : string := join (map sent log).

(** A text without line feed. *)
Fixpoint no_lf (s : string) : bool :=
  match s with
  | EmptyString => true
  | String c s' => negb (Ascii.eqb c LF) && no_lf s'
  end.

(** Induction on a value and on the values inside it. *)
Section JsonInduction.
Variable P : json -> Prop.
Hypothesis Hnull : P JNull.
Hypothesis Hnumber : forall n, P (JNumber n).
Hypothesis Hstring : forall s, P (JString s).
Hypothesis Harray : forall items, Forall P items -> P (JArray items).
Hypothesis Hobject :
  forall properties, Forall (fun kv => P (snd kv)) properties -> P (JObject properties).

Fixpoint json_induction (j : json) : P j :=
  match j with
  | JNull => Hnull
  | JNumber n => Hnumber n
  | JString s => Hstring s
  | JArray items =>
      Harray items
        ((fix all (l : list json) : Forall P l :=
            match l with
            | [] => @List.Forall_nil _ P
            | x :: l' => @List.Forall_cons _ P x l' (json_induction x) (all l')
            end) items)
  | JObject properties =>
      Hobject properties
        ((fix all (l : list (string * json)) : Forall (fun kv => P (snd kv)) l :=
            match l with
            | [] => @List.Forall_nil _ (fun kv => P (snd kv))
            | kv :: l' =>
                @List.Forall_cons _ (fun kv => P (snd kv)) kv l' (json_induction (snd kv)) (all l')
            end) properties)
  end.
End JsonInduction.

End Sse.

(** ** The client of the test script *)

Module Client.

(** [s.split('\n\n')], with [cur] the piece read so far: the text is cut at
    every blank line met from left to right; the last piece is what follows
    the last blank line, so there is always one. *)
Fixpoint split_blank (cur : string) (s : string) : list string :=
  match s with
  | EmptyString => [cur]
  | String c s' =>
      match s' with
      | EmptyString => [cur +:+ String c EmptyString]
      | String d s'' =>
          if Ascii.eqb c LF && Ascii.eqb d LF
          then cur :: split_blank EmptyString s''
          else split_blank (cur +:+ String c EmptyString) s'
      end
  end.

(** The state of the reading loop of [testStream]. *)
Record reader := {
  buffer : string;
  printed : list string;
  eventCount : nat
}.

(** One turn of the loop on a chunk, decoded: the buffer grows by the
    chunk and is split at the blank lines; the last piece, [lines.pop()],
    stays in the buffer; the other pieces that are not blank are printed and
    counted. *)
Definition read_chunk (st : reader) (chunk : string) : reader :=
  let lines := split_blank EmptyString (buffer st +:+ chunk) in
  let shown := List.filter (fun line => truthy (trim line)) (removelast lines) in
  {| buffer := List.last lines EmptyString;
     printed := printed st ++ shown;
     eventCount := eventCount st + length shown |}.

Definition read_all (chunks : list string) : reader :=
  foldl read_chunk {| buffer := EmptyString; printed := []; eventCount := 0 |} chunks.

(** The state of the loop once the text [w] has come, in one chunk. *)
Definition after (w : string) : reader :=
  let shown := List.filter (fun line => truthy (trim line))
                           (removelast (split_blank EmptyString w)) in
  {| buffer := List.last (split_blank EmptyString w) EmptyString;
     printed := shown;
     eventCount := length shown |}.

(** A text that holds no blank line. *)
Fixpoint blank_free (s : string) : bool :=
  match s with
  | EmptyString => true
  | String c s' =>
      match s' with
      | EmptyString => true
      | String d _ => negb (Ascii.eqb c LF && Ascii.eqb d LF) && blank_free s'
      end
  end.

Definition starts_lf (s : string) : bool :=
  match s with
  | String c _ => Ascii.eqb c LF
  | EmptyString => false
  end.

Fixpoint ends_lf (s : string) : bool :=
  match s with
  | EmptyString => false
  | String c EmptyString => Ascii.eqb c LF
  | String _ s' => ends_lf s'
  end.

(** ** [fetchWithRetry] of the test script *)

Definition RETRY_DELAY : Z := 30000.
Definition MAX_RETRIES : Z := 1.

(** What one call of [fetch] comes to. *)
Inductive attempt (R E : Type) :=
| Fulfilled (response : R)
| Rejected (error : E).

(** How [fetchWithRetry] ends: it returns a response, or [undefined] when
    the loop is left without one, or it throws. *)
Inductive outcome (R E : Type) :=
| Returned (response : option R)
| Thrown (error : E).

Inductive action :=
| DoFetch (i : nat)
| DoLog (i : nat)
| DoSleep (ms : Z).

Arguments Fulfilled {R E} response.
Arguments Rejected {R E} error.
Arguments Returned {R E} response.
Arguments Thrown {R E} error.

(** The loop [for (let i = 0; i <= retries; i++)], from the turn [i] on;
    [fetch i] is what the call of [fetch] in that turn comes to.  The result
    is how the function ends and what it has done, in order. *)
Fixpoint retry_loop {R E : Type} (fetch : nat -> attempt R E) (retries : Z)
    (fuel : nat) (i : nat) : outcome R E * list action :=
  match fuel with
  | O => (Returned None, [])
  | S fuel' =>
      if (Z.of_nat i <=? retries)%Z then
        match fetch i with
        | Fulfilled response => (Returned (Some response), [DoFetch i])
        | Rejected error =>
            if (Z.of_nat i <? retries)%Z then
              let '(o, t) := retry_loop fetch retries fuel' (S i) in
              (o, DoFetch i :: DoLog i :: DoSleep RETRY_DELAY :: t)
            else (Thrown error, [DoFetch i])
        end
      else (Returned None, [])
  end.

(** [fetchWithRetry(url, options, retries)]: the loop runs [retries + 1]
    turns at most. *)
Definition fetchWithRetry {R E : Type} (fetch : nat -> attempt R E) (retries : Z)
  : outcome R E * list action :=
  retry_loop fetch retries (Z.to_nat (retries + 1)) 0.

(** What a failed turn that is tried again does. *)
Definition failed_turn (i : nat) : list action :=
  [DoFetch i; DoLog i; DoSleep RETRY_DELAY].

End Client.

(** ** Facts about the string primitives *)

Module JsStringFacts.

Lemma append_nil_r (s : string) : s +:+ "" = s.
Proof. induction s as [|c s IH]; simpl; [reflexivity | now rewrite IH]. Qed.

Lemma append_assoc (a b c : string) : (a +:+ b) +:+ c = a +:+ (b +:+ c).
Proof. induction a as [|x a IH]; simpl; [reflexivity | now rewrite IH]. Qed.

Lemma truthy_true (s : string) : truthy s = true <-> s <> "".
Proof. destruct s; simpl; split; congruence. Qed.

Lemma drop_app (a b : string) : drop (String.length a) (a +:+ b) = b.
Proof. induction a as [|x a IH]; simpl; [now destruct b | exact IH]. Qed.

Lemma take_app (a b : string) : take (String.length a) (a +:+ b) = a.
Proof. induction a as [|x a IH]; simpl; [now destruct b | now rewrite IH]. Qed.

Lemma prefix_nil (s : string) : String.prefix "" s = true.
Proof. now destruct s. Qed.

Lemma prefix_cons (c d : ascii) (p s : string) :
  String.prefix (String c p) (String d s) = true <-> c = d /\ String.prefix p s = true.
Proof.
  simpl. destruct (ascii_dec c d) as [->|Hne]; split; try tauto; congruence.
Qed.

Lemma prefix_app (p s : string) : String.prefix p (p +:+ s) = true.
Proof.
  induction p as [|c p IH]; [apply prefix_nil|].
  simpl. destruct (ascii_dec c c); [exact IH | congruence].
Qed.

Lemma prefix_split (p s : string) :
  String.prefix p s = true -> s = p +:+ drop (String.length p) s.
Proof.
  revert s; induction p as [|c p IH]; intros s H.
  - now destruct s.
  - destruct s as [|d s]; [discriminate|].
    apply prefix_cons in H as [-> H]. simpl. f_equal. now apply IH.
Qed.

Lemma prefix_app_l (p a b : string) :
  String.prefix p a = true -> String.prefix p (a +:+ b) = true.
Proof.
  intros H. rewrite (prefix_split _ _ H), append_assoc. apply prefix_app.
Qed.

(** A prefix of [x ++ m] lies in [x] or runs over the whole of [x] into [m]. *)
Lemma prefix_app_inv (p x m : string) :
  String.prefix p (x +:+ m) = true ->
  String.prefix p x = true \/
  exists v, p = x +:+ v /\ v <> "" /\ String.prefix v m = true.
Proof.
  revert p; induction x as [|c x IH]; intros p H.
  - destruct p as [|d p]; [left; reflexivity|].
    right. exists (String d p). simpl in *. repeat split; [discriminate | exact H].
  - destruct p as [|d p]; [left; reflexivity|].
    change (String.prefix (String d p) (String c (x +:+ m)) = true) in H.
    apply prefix_cons in H as [-> H].
    destruct (IH _ H) as [Hx | (v & -> & Hv & Hm)].
    + left. now apply prefix_cons.
    + right. exists v. repeat split; assumption.
Qed.

Lemma tails_app (x v : string) : x <> "" -> v ∈ tails (x +:+ v).
Proof.
  induction x as [|c x IH]; [congruence|]. intros _. simpl.
  destruct x as [|d x]; [left|].
  right. apply IH. discriminate.
Qed.

Lemma no_overlap_spec (p m x v : string) :
  no_overlap p m = true -> p = x +:+ v -> x <> "" -> v <> "" ->
  String.prefix v m = false.
Proof.
  intros H -> Hx Hv. unfold no_overlap in H.
  rewrite forallb_forall in H.
  specialize (H v). rewrite <- list_elem_of_In in H.
  specialize (H (tails_app x v Hx)).
  apply truthy_true in Hv. rewrite Hv in H. simpl in H.
  now destruct (String.prefix v m).
Qed.

Lemma index_of_none_cons (p : string) (c : ascii) (s : string) :
  index_of p (String c s) = None ->
  String.prefix p (String c s) = false /\ index_of p s = None.
Proof.
  cbn [index_of]. destruct (String.prefix p (String c s)); [discriminate|].
  destruct (index_of p s); [discriminate | tauto].
Qed.

(** The first occurrence of [p] in [x ++ m], when [x] holds none and no
    occurrence can straddle the seam. *)
Lemma index_of_app (p x m : string) :
  index_of p x = None -> no_overlap p m = true ->
  index_of p (x +:+ m) = option_map (Nat.add (String.length x)) (index_of p m).
Proof.
  intros Hx Hov. induction x as [|c x IH].
  - simpl. now destruct (index_of p m).
  - apply index_of_none_cons in Hx as [Hpre Hx].
    change (String c x +:+ m) with (String c (x +:+ m)). cbn [index_of].
    destruct (String.prefix p (String c (x +:+ m))) eqn:E.
    + exfalso. change (String c (x +:+ m)) with (String c x +:+ m) in E.
      apply prefix_app_inv in E as [E | (v & Hp & Hv & Hm)]; [congruence|].
      rewrite (no_overlap_spec p m (String c x) v Hov Hp) in Hm;
        [discriminate | discriminate | exact Hv].
    + rewrite (IH Hx). now destruct (index_of p m).
Qed.

Lemma includes_false (p s : string) : includes p s = false <-> index_of p s = None.
Proof. unfold includes. destruct (index_of p s); split; congruence. Qed.

Lemma includes_prefix (p s : string) : includes p (p +:+ s) = true.
Proof.
  unfold includes. destruct p; simpl; [now destruct s|].
  destruct (ascii_dec a a); [|congruence]. now rewrite prefix_app.
Qed.

Lemma index_of_prefix (p s : string) : index_of p (p +:+ s) = Some 0.
Proof.
  destruct p; simpl; [now destruct s|].
  destruct (ascii_dec a a); [|congruence]. now rewrite prefix_app.
Qed.

Lemma replace_first_prefix (p s : string) : replace_first p "" (p +:+ s) = s.
Proof.
  unfold replace_first. rewrite index_of_prefix. simpl. apply drop_app.
Qed.

Lemma drop_add_app (a b : string) (n : nat) :
  drop (String.length a + n) (a +:+ b) = drop n b.
Proof. induction a as [|x a IH]; simpl; [reflexivity | exact IH]. Qed.

Lemma index_of_drop (p s : string) (n : nat) :
  index_of p s = None -> index_of p (drop n s) = None.
Proof.
  revert s; induction n as [|n IH]; intros s H; [exact H|].
  destruct s as [|c s]; [exact H|].
  apply index_of_none_cons in H as [_ H]. simpl. now apply IH.
Qed.

Lemma index_of_app_l (p a b : string) :
  index_of p (a +:+ b) = None -> index_of p a = None.
Proof.
  induction a as [|c a IH]; intros H.
  - destruct p as [|d p]; [|reflexivity].
    destruct b; discriminate H.
  - change (String c a +:+ b) with (String c (a +:+ b)) in H.
    apply index_of_none_cons in H as [Hp H].
    cbn [index_of]. destruct (String.prefix p (String c a)) eqn:E.
    + apply (prefix_app_l _ _ b) in E. simpl in E, Hp. congruence.
    + now rewrite (IH H).
Qed.

Lemma index_of_app_r (p a b : string) :
  index_of p (a +:+ b) = None -> index_of p b = None.
Proof.
  intros H. rewrite <- (drop_app a b). now apply index_of_drop.
Qed.

(** *** [trim] and the final line feed *)

Lemma all_space_cons (c : ascii) (s : string) :
  all_space (String c s) = is_space c && all_space s.
Proof. reflexivity. Qed.

Lemma trim_start_split (s : string) :
  exists l, s = l +:+ trim_start s /\ all_space l = true.
Proof.
  induction s as [|c s (l & Hl & Hs)].
  - now exists "".
  - simpl. destruct (is_space c) eqn:E.
    + exists (String c l). simpl. rewrite <- Hl. split; [reflexivity|].
      rewrite all_space_cons, E. exact Hs.
    + now exists "".
Qed.

Lemma trim_end_split (s : string) :
  exists r, s = trim_end s +:+ r /\ all_space r = true.
Proof.
  induction s as [|c s (r & Hr & Hs)].
  - now exists "".
  - cbn [trim_end]. destruct (trim_end s) as [|d t].
    + simpl in Hr. subst r. destruct (is_space c) eqn:E.
      * exists (String c s). split; [reflexivity|]. now rewrite all_space_cons, E.
      * exists s. now split.
    + exists r. split; [|exact Hs]. simpl. now rewrite Hr at 1.
Qed.

Lemma head_trim_start (s : string) (c : ascii) :
  first_char (trim_start s) = Some c -> is_space c = false.
Proof.
  induction s as [|d s IH]; simpl; [discriminate|].
  destruct (is_space d) eqn:E; [exact IH|]. simpl. congruence.
Qed.

Lemma head_trim_end (s : string) (c : ascii) :
  first_char (trim_end s) = Some c -> first_char s = Some c.
Proof.
  destruct s as [|d s]; [discriminate|]. cbn [trim_end].
  destruct (trim_end s); [destruct (is_space d)|]; simpl; congruence.
Qed.

Lemma last_trim_end (s : string) (c : ascii) :
  last_char (trim_end s) = Some c -> is_space c = false.
Proof.
  induction s as [|d s IH]; [discriminate|]. cbn [trim_end].
  destruct (trim_end s) as [|e t].
  - destruct (is_space d) eqn:E; simpl; congruence.
  - exact IH.
Qed.

(** [trim] cuts white space, and only white space, off both ends. *)
Lemma trim_split (s : string) :
  exists l r, s = l +:+ trim s +:+ r /\ all_space l = true /\ all_space r = true.
Proof.
  destruct (trim_start_split s) as (l & Hl & Hls).
  destruct (trim_end_split (trim_start s)) as (r & Hr & Hrs).
  exists l, r. unfold trim. now rewrite <- Hr.
Qed.

Lemma trim_ends (s : string) (c : ascii) :
  first_char (trim s) = Some c \/ last_char (trim s) = Some c -> is_space c = false.
Proof.
  unfold trim. intros [H|H].
  - apply head_trim_end in H. now apply head_trim_start in H.
  - now apply last_trim_end in H.
Qed.

Lemma strip_final_newline_lf (s : string) :
  strip_final_newline (s +:+ String LF "") = s.
Proof.
  induction s as [|c s IH]; [reflexivity|].
  simpl. rewrite IH. now destruct s.
Qed.

Lemma strip_final_newline_other (s : string) :
  last_char s <> Some LF -> strip_final_newline s = s.
Proof.
  induction s as [|c s IH]; [reflexivity|]. intros H.
  destruct s as [|d s].
  - simpl. destruct (Ascii.eqb_spec c LF) as [->|]; [now elim H | reflexivity].
  - change (String c (strip_final_newline (String d s)) = String c (String d s)).
    f_equal. now apply IH.
Qed.

Lemma strip_final_newline_cases (s : string) :
  (last_char s <> Some LF /\ strip_final_newline s = s)
  \/ s = strip_final_newline s +:+ String LF "".
Proof.
  induction s as [|c s IH]; [left; split; [discriminate | reflexivity]|].
  destruct s as [|d s].
  - simpl. destruct (Ascii.eqb_spec c LF) as [->|Hc]; [right; reflexivity|].
    left. split; congruence.
  - change (strip_final_newline (String c (String d s)))
      with (String c (strip_final_newline (String d s))).
    change (last_char (String c (String d s))) with (last_char (String d s)).
    destruct IH as [[Hl Hs]|Hs]; [left | right].
    + split; [exact Hl | now rewrite Hs].
    + change (String c (String d s)
              = String c (strip_final_newline (String d s) +:+ String LF "")).
      now rewrite <- Hs.
Qed.

Lemma last_app (a b : string) : b <> "" -> last_char (a +:+ b) = last_char b.
Proof.
  intros Hb. induction a as [|c a IH]; [reflexivity|].
  change (String c a +:+ b) with (String c (a +:+ b)). cbn [last_char].
  rewrite IH. destruct (a +:+ b) eqn:E; [|reflexivity].
  destruct a; [simpl in E; congruence | discriminate].
Qed.

(** A text without white space at its ends does not end in a line feed,
    and neither does any end of it. *)
Lemma strip_final_newline_trimmed (a b : string) :
  trim (a +:+ b) = a +:+ b -> strip_final_newline b = b.
Proof.
  intros H. destruct b as [|c b]; [reflexivity|].
  apply strip_final_newline_other. intros Hl.
  rewrite <- (last_app a) in Hl by discriminate.
  rewrite <- H in Hl. now apply (fun x => trim_ends _ _ (or_intror x)) in Hl.
Qed.

Lemma join_app (l1 l2 : list string) : join (l1 ++ l2) = join l1 +:+ join l2.
Proof.
  induction l1 as [|x l1 IH]; [reflexivity|].
  simpl. now rewrite IH, append_assoc.
Qed.

Lemma index_of_join (p : string) (l : list string) :
  index_of p (join l) = None -> Forall (fun y => index_of p y = None) l.
Proof.
  induction l as [|x l IH]; intros H; constructor.
  - exact (index_of_app_l _ _ _ H).
  - apply IH. exact (index_of_app_r _ _ _ H).
Qed.

Lemma join_filter_truthy (l : list string) : join (List.filter truthy l) = join l.
Proof.
  induction l as [|x l IH]; [reflexivity|].
  simpl. destruct x; simpl; [exact IH | now rewrite IH].
Qed.

(** Cutting the first occurrence of [p] out of [pre ++ p ++ post]. *)
Lemma replace_first_app (p pre post : string) :
  index_of p pre = None -> no_overlap p (p +:+ post) = true ->
  replace_first p "" (pre +:+ p +:+ post) = pre +:+ post.
Proof.
  intros Hpre Hov. unfold replace_first.
  rewrite (index_of_app _ _ _ Hpre Hov), index_of_prefix. cbn [option_map].
  rewrite Nat.add_0_r, take_app, drop_add_app, drop_app. reflexivity.
Qed.

End JsStringFacts.

(** ** The reasoning markers *)

Module MarkerFacts.
Import JsStringFacts.

Lemma no_overlap_open_close : no_overlap think_open think_close = true.
Proof. reflexivity. Qed.

Lemma no_overlap_close_close : no_overlap think_close think_close = true.
Proof. reflexivity. Qed.

Lemma no_overlap_open_open (s : string) :
  no_overlap think_open (think_open +:+ s) = true.
Proof. reflexivity. Qed.

(** A closing marker appended to a text without opening marker brings none. *)
Lemma includes_open_app_close (x : string) :
  includes think_open x = false ->
  includes think_open (x +:+ think_close) = false.
Proof.
  intros H%includes_false. apply includes_false.
  now rewrite (index_of_app _ _ _ H no_overlap_open_close).
Qed.

Lemma index_of_close_app_close (x : string) :
  includes think_close x = false ->
  index_of think_close (x +:+ think_close) = Some (String.length x).
Proof.
  intros H%includes_false.
  rewrite (index_of_app _ _ _ H no_overlap_close_close). simpl.
  now rewrite Nat.add_0_r.
Qed.

Lemma includes_close_app_close (x : string) :
  includes think_close x = false ->
  includes think_close (x +:+ think_close) = true.
Proof.
  intros H. unfold includes. now rewrite index_of_close_app_close.
Qed.

Lemma replace_first_app_close (x : string) :
  includes think_close x = false ->
  replace_first think_close "" (x +:+ think_close) = x.
Proof.
  intros H. unfold replace_first. rewrite (index_of_close_app_close _ H).
  rewrite take_app, drop_add_app. simpl. apply append_nil_r.
Qed.

Lemma replace_first_open (pre post : string) :
  includes think_open pre = false ->
  replace_first think_open "" (pre +:+ think_open +:+ post) = pre +:+ post.
Proof. intros H%includes_false. now apply replace_first_app. Qed.

Lemma replace_first_close (pre post : string) :
  includes think_close pre = false ->
  replace_first think_close "" (pre +:+ think_close +:+ post) = pre +:+ post.
Proof. intros H%includes_false. now apply replace_first_app. Qed.

Lemma includes_open_mid (pre post : string) :
  includes think_open (pre +:+ think_open +:+ post) = true.
Proof.
  induction pre as [|c pre IH]; [exact (includes_prefix think_open post)|].
  change (String c pre +:+ think_open +:+ post)
    with (String c (pre +:+ think_open +:+ post)).
  unfold includes in *. cbn [index_of].
  destruct (String.prefix _ _); [reflexivity|].
  now destruct (index_of think_open _).
Qed.

Lemma includes_close_mid (pre post : string) :
  includes think_close (pre +:+ think_close +:+ post) = true.
Proof.
  induction pre as [|c pre IH]; [exact (includes_prefix think_close post)|].
  change (String c pre +:+ think_close +:+ post)
    with (String c (pre +:+ think_close +:+ post)).
  unfold includes in *. cbn [index_of].
  destruct (String.prefix _ _); [reflexivity|].
  now destruct (index_of think_close _).
Qed.

End MarkerFacts.

(** ** The regular expression of the non-streaming conversion *)

Module NonStreamFacts.
Import JsStringFacts MarkerFacts NonStream.

Lemma lazy_until_close_none (s : string) :
  index_of think_close s = None -> lazy_until_close s = None.
Proof.
  induction s as [|c s IH]; intros H.
  - reflexivity.
  - apply index_of_none_cons in H as [Hp H].
    cbn [lazy_until_close]. rewrite Hp. now rewrite (IH H).
Qed.

(** Without a closing marker the expression matches nowhere. *)
Lemma think_regex_exec_no_close (s : string) :
  index_of think_close s = None -> think_regex_exec s = None.
Proof.
  induction s as [|c s IH]; intros H.
  - reflexivity.
  - assert (Hm : match_here (String c s) = None).
    { unfold match_here. destruct (String.prefix think_open (String c s)); [|reflexivity].
      apply lazy_until_close_none. now apply index_of_drop. }
    cbn [think_regex_exec]. rewrite Hm.
    apply index_of_none_cons in H as [_ H]. now rewrite (IH H).
Qed.

(** The first opening marker is followed by no closing marker: no match. *)
Lemma think_regex_exec_unterminated (pre post : string) :
  includes think_open pre = false ->
  includes think_close post = false ->
  think_regex_exec (pre +:+ think_open +:+ post) = None.
Proof.
  intros Hpre Hpost%includes_false. induction pre as [|c pre IH].
  - change ("" +:+ think_open +:+ post)
      with (String "<" ("think>" +:+ post)).
    cbn [think_regex_exec].
    assert (Hm : match_here (String "<" ("think>" +:+ post)) = None).
    { unfold match_here. simpl. rewrite prefix_nil. now apply lazy_until_close_none. }
    rewrite Hm. rewrite think_regex_exec_no_close; [reflexivity|].
    simpl. now rewrite Hpost.
  - apply includes_false in Hpre.
    apply index_of_none_cons in Hpre as [Hp Hpre].
    change (String c pre +:+ think_open +:+ post)
      with (String c (pre +:+ think_open +:+ post)).
    cbn [think_regex_exec].
    assert (Hm : match_here (String c (pre +:+ think_open +:+ post)) = None).
    { unfold match_here.
      destruct (String.prefix think_open (String c (pre +:+ think_open +:+ post))) eqn:E;
        [|reflexivity].
      exfalso.
      change (String c (pre +:+ think_open +:+ post))
        with (String c pre +:+ (think_open +:+ post)) in E.
      apply prefix_app_inv in E as [E | (v & Hv & Hne & Hm)]; [congruence|].
      rewrite (no_overlap_spec _ _ _ _ (no_overlap_open_open post) Hv) in Hm;
        [discriminate | discriminate | exact Hne]. }
    rewrite Hm. rewrite IH; [reflexivity|]. now apply includes_false.
Qed.

End NonStreamFacts.

(** ** Facts about the streaming handler *)

Module StreamFacts.
Import JsStringFacts MarkerFacts Stream.

Lemma run_app (ops1 ops2 : list op) (h : handler) :
  run (ops1 ++ ops2) h = run ops2 (run ops1 h).
Proof. apply foldl_app. Qed.

Lemma run_cons (o : op) (ops : list op) (h : handler) :
  run (o :: ops) h = run ops (step h o).
Proof. reflexivity. Qed.

Lemma deltas_app (l1 l2 : list sink_call) : deltas (l1 ++ l2) = deltas l1 ++ deltas l2.
Proof. apply omap_app. Qed.

Lemma events_app (l1 l2 : list sink_call) : events (l1 ++ l2) = events l1 ++ events l2.
Proof. apply omap_app. Qed.

(** *** The four cases of [handleContent] *)

Lemma handleContent_open (c : string) (h : handler) :
  includes think_open c = true ->
  handleContent c h =
  set_thinking h (strip_final_newline (replace_first think_open "" c)) true.
Proof. intros H. unfold handleContent. now rewrite H. Qed.

Lemma handleContent_more (c : string) (h : handler) :
  includes think_open c = false -> inThinking h = true ->
  includes think_close c = false ->
  handleContent c h = set_thinking h (thinkingBuffer h +:+ c) true.
Proof. intros Ho Hin Hc. unfold handleContent. now rewrite Ho, Hin, Hc. Qed.

Lemma handleContent_close (c : string) (h : handler) :
  includes think_open c = false -> inThinking h = true ->
  includes think_close c = true ->
  handleContent c h =
  let buf := thinkingBuffer h +:+
             strip_final_newline (replace_first think_close "" c) in
  let h1 := set_thinking h buf false in
  set_thinking (if truthy (trim buf) then sendContentBlock (trim buf) h1 else h1)
               "" false.
Proof.
  intros Ho Hin Hc. unfold handleContent. rewrite Ho, Hin, Hc.
  cbn zeta. destruct h as [r i m ci hs tb it [|] ti to]; simpl;
    destruct (truthy _); reflexivity.
Qed.

Lemma handleContent_visible (c : string) (h : handler) :
  includes think_open c = false -> inThinking h = false ->
  handleContent c h = if truthy c then sendContentBlock c h else h.
Proof. intros Ho Hin. unfold handleContent. now rewrite Ho, Hin. Qed.

(** *** What one call writes *)

Lemma res_sendContentBlock (t : string) (h : handler) :
  res (sendContentBlock t h) =
  res h ++ (if hasContent h then [] else [Write (ContentBlockStart (contentIndex h) "")])
        ++ [Write (ContentBlockDelta (contentIndex h) t)].
Proof.
  destruct h as [r i m ci hs tb it [|] ti to]; simpl; [reflexivity|].
  now rewrite <- app_assoc.
Qed.

Lemma deltas_sendContentBlock (t : string) (h : handler) :
  deltas (res (sendContentBlock t h)) = deltas (res h) ++ [t].
Proof.
  rewrite res_sendContentBlock, !deltas_app.
  destruct (hasContent h); reflexivity.
Qed.

Lemma inThinking_sendContentBlock (t : string) (h : handler) :
  inThinking (sendContentBlock t h) = inThinking h.
Proof. destruct h as [r i m ci hs tb it [|] ti to]; reflexivity. Qed.

Lemma res_end (h : handler) :
  res (end_ h) =
  res h
  ++ match flush h with
     | [] => if hasContent h then [Write (ContentBlockStop (contentIndex h))] else []
     | t :: _ =>
         (if hasContent h then [] else [Write (ContentBlockStart (contentIndex h) "")])
         ++ [Write (ContentBlockDelta (contentIndex h) t);
             Write (ContentBlockStop (contentIndex h))]
     end
  ++ [Write (MessageDelta "end_turn" (totalOutputTokens h)); Write MessageStop; End].
Proof.
  unfold end_, flush.
  destruct h as [r i m ci hs tb it hc ti to]; cbn [inThinking thinkingBuffer hasContent
    contentIndex totalOutputTokens res].
  destruct (it && truthy (trim tb)); destruct hc; simpl;
    rewrite <- ?app_assoc; reflexivity.
Qed.

Lemma deltas_end (h : handler) :
  deltas (res (end_ h)) = deltas (res h) ++ flush h.
Proof.
  rewrite res_end, !deltas_app.
  destruct (flush h) as [|t [|]] eqn:E; destruct (hasContent h); simpl;
    rewrite ?app_nil_r; try reflexivity;
    unfold flush in E; destruct (_ && _); discriminate.
Qed.

(** *** Runs of fragments *)

(** Inside a reasoning segment, fragments without marker only grow the
    buffer. *)
Lemma run_more (ms : list string) (h : handler) :
  Forall marker_free ms -> inThinking h = true ->
  run (map HandleContent ms) h =
  set_thinking h (thinkingBuffer h +:+ join ms) true.
Proof.
  intros Hms. revert h. induction Hms as [|m ms [Ho Hc] _ IH]; intros h Hin.
  - simpl. rewrite append_nil_r. destruct h; simpl in *; now subst.
  - cbn [map]. rewrite run_cons. cbn [step].
    rewrite (handleContent_more _ _ Ho Hin Hc).
    rewrite IH; [|reflexivity].
    destruct h; simpl. now rewrite append_assoc.
Qed.

(** Outside of one, fragments without opening marker are written as they
    come, the empty ones skipped. *)
Lemma run_visible (ys : list string) (h : handler) :
  Forall (fun y => includes think_open y = false) ys -> inThinking h = false ->
  deltas (res (run (map HandleContent ys) h)) = deltas (res h) ++ List.filter truthy ys
  /\ inThinking (run (map HandleContent ys) h) = false.
Proof.
  intros Hys. revert h. induction Hys as [|y ys Ho _ IH]; intros h Hin.
  - simpl. now rewrite app_nil_r.
  - cbn [map]. rewrite run_cons. cbn [step].
    rewrite (handleContent_visible _ _ Ho Hin). cbn [List.filter].
    destruct (truthy y).
    + destruct (IH (sendContentBlock y h)) as [-> ->].
      { now rewrite inThinking_sendContentBlock. }
      now rewrite deltas_sendContentBlock, <- app_assoc.
    + now apply IH.
Qed.

(** The closing fragment writes the trimmed reasoning text, if any is left. *)
Lemma deltas_close (c : string) (h : handler) :
  includes think_open c = false -> inThinking h = true ->
  includes think_close c = true ->
  let r := trim (thinkingBuffer h +:+
                 strip_final_newline (replace_first think_close "" c)) in
  deltas (res (handleContent c h)) = deltas (res h) ++ (if truthy r then [r] else [])
  /\ inThinking (handleContent c h) = false.
Proof.
  intros Ho Hin Hc. rewrite (handleContent_close _ _ Ho Hin Hc). cbn zeta.
  split; [|reflexivity].
  change (res (set_thinking ?x "" false)) with (res x).
  destruct (truthy (trim _)).
  - now rewrite deltas_sendContentBlock.
  - now rewrite app_nil_r.
Qed.

(** One reasoning segment whose markers open and close a fragment, followed
    by visible fragments. *)
Lemma deltas_segment (h : handler) (x0 : string) (ms : list string) (xk : string)
    (ys : list string) :
  Forall marker_free ms -> marker_free xk ->
  Forall (fun y => includes think_open y = false) ys ->
  let h' := run (map HandleContent (segment x0 ms xk ys)) h in
  let r := trim (reasoning_text x0 ms xk) in
  deltas (res h') =
    deltas (res h) ++ (if truthy r then [r] else []) ++ List.filter truthy ys
  /\ inThinking h' = false.
Proof.
  intros Hms [Hko Hkc] Hys. cbn zeta. unfold segment.
  cbn [map]. rewrite run_cons. cbn [step].
  rewrite (handleContent_open _ _ (includes_prefix _ _)), replace_first_prefix.
  rewrite !map_app, !run_app. rewrite (run_more _ _ Hms); [|reflexivity].
  cbn [map]. rewrite run_cons. cbn [step].
  change (run [] ?x) with x.
  set (h3 := set_thinking (set_thinking h _ true) _ true).
  destruct (deltas_close (xk +:+ think_close) h3) as [Hd Hi];
    [now apply includes_open_app_close | reflexivity
    | now apply includes_close_app_close |].
  destruct (run_visible ys _ Hys Hi) as [-> ->].
  split; [|reflexivity]. rewrite Hd, <- app_assoc.
  rewrite (replace_first_app_close _ Hkc).
  change (thinkingBuffer h3) with (strip_final_newline x0 +:+ join ms).
  change (res h3) with (res h).
  unfold reasoning_text. now rewrite append_assoc.
Qed.

(** A reasoning segment whose markers sit anywhere in their fragments, with
    visible fragments in front of it and behind it, in a whole response. *)
Lemma deltas_stream_general (messageId model : string) (vs : list string)
    (p0 x0 : string) (ms : list string) (pk xk : string) (ys : list string) :
  Forall (fun y => includes think_open y = false) vs ->
  includes think_open p0 = false ->
  Forall marker_free ms ->
  includes think_open (pk +:+ think_close +:+ xk) = false ->
  includes think_close pk = false ->
  Forall (fun y => includes think_open y = false) ys ->
  deltas (res (stream messageId model
                 (vs ++ (p0 +:+ think_open +:+ x0) :: ms
                     ++ [pk +:+ think_close +:+ xk] ++ ys)))
  = List.filter truthy vs
    ++ (let r := trim (strip_final_newline (p0 +:+ x0) +:+ join ms
                       +:+ strip_final_newline (pk +:+ xk)) in
        if truthy r then [r] else [])
    ++ List.filter truthy ys.
Proof.
  intros Hvs Hp0 Hms Hko Hpk Hys.
  unfold stream. rewrite run_app, run_app. cbn [run foldl step].
  change (foldl step ?h ?l) with (run l h).
  rewrite deltas_end.
  rewrite map_app, run_app.
  destruct (run_visible vs (start (constructor [] messageId model)) Hvs eq_refl)
    as [Hd1 Hi1].
  set (h1 := run (map HandleContent vs) _) in *.
  cbn [map]. rewrite run_cons. cbn [step].
  rewrite (handleContent_open _ _ (includes_open_mid p0 x0)),
    (replace_first_open _ _ Hp0).
  rewrite !map_app, !run_app. rewrite (run_more _ _ Hms); [|reflexivity].
  cbn [map]. rewrite run_cons. cbn [step].
  change (run [] ?x) with x.
  set (h3 := set_thinking (set_thinking h1 _ true) _ true).
  destruct (deltas_close (pk +:+ think_close +:+ xk) h3 Hko eq_refl
              (includes_close_mid pk xk)) as [Hd Hi].
  destruct (run_visible ys _ Hys Hi) as [Hd2 Hi2].
  unfold flush. rewrite Hi2, Hd2, Hd. cbn [andb]. rewrite app_nil_r.
  rewrite (replace_first_close _ _ Hpk).
  change (thinkingBuffer h3)
    with (strip_final_newline (p0 +:+ x0) +:+ join ms).
  change (res h3) with (res h1). rewrite Hd1. cbn zeta.
  change (deltas (res (start (constructor [] messageId model)))) with (@nil string).
  cbn [app]. rewrite append_assoc, <- !app_assoc. reflexivity.
Qed.

(** *** The log of a response *)

Lemma feeding_start (messageId model : string) :
  feeding messageId model (start (constructor [] messageId model)).
Proof. split; reflexivity. Qed.

Lemma feeding_set_thinking (messageId model : string) (h : handler)
    (buf : string) (b : bool) :
  feeding messageId model h -> feeding messageId model (set_thinking h buf b).
Proof. intros [? ? ? ?]. split; assumption. Qed.

Lemma feeding_sendContentBlock (messageId model : string) (h : handler) (t : string) :
  feeding messageId model h -> feeding messageId model (sendContentBlock t h).
Proof.
  intros [Hi Ht Ho He].
  assert (Hc : hasContent (sendContentBlock t h) = true)
    by (destruct h as [r i m ci hs tb it [|] ti to]; reflexivity).
  split.
  - destruct h as [r i m ci hs tb it [|] ti to]; exact Hi.
  - destruct h as [r i m ci hs tb it [|] ti to]; exact Ht.
  - rewrite Hc, deltas_sendContentBlock. now destruct (deltas (res h)).
  - rewrite Hc, deltas_sendContentBlock, res_sendContentBlock, !events_app, He, Hi.
    rewrite map_app. destruct (hasContent h) eqn:E; simpl.
    + reflexivity.
    + rewrite Ho in E. now destruct (deltas (res h)).
Qed.

Lemma feeding_handleContent (messageId model : string) (h : handler) (c : string) :
  feeding messageId model h -> feeding messageId model (handleContent c h).
Proof.
  intros H. unfold handleContent.
  destruct (includes think_open c); [now apply feeding_set_thinking|].
  destruct (inThinking h).
  - destruct (includes think_close c); [|now apply feeding_set_thinking].
    cbn zeta. apply feeding_set_thinking.
    destruct (truthy _);
      [apply feeding_sendContentBlock|]; now apply feeding_set_thinking.
  - destruct (truthy c); [now apply feeding_sendContentBlock | exact H].
Qed.

Lemma feeding_run (messageId model : string) (fragments : list string) (h : handler) :
  feeding messageId model h ->
  feeding messageId model (run (map HandleContent fragments) h).
Proof.
  revert h. induction fragments as [|c l IH]; intros h H; [exact H|].
  cbn [map]. rewrite run_cons. apply IH. now apply feeding_handleContent.
Qed.

(** The events of a whole response. *)
Lemma events_stream (messageId model : string) (fragments : list string) :
  events (res (stream messageId model fragments)) =
  MessageStart messageId model 0 0
  :: block 0 (deltas (res (stream messageId model fragments)))
  ++ [MessageDelta "end_turn" 0; MessageStop].
Proof.
  unfold stream. rewrite run_app, run_app. cbn [run foldl step].
  change (foldl step ?h ?l) with (run l h).
  pose proof (feeding_run messageId model fragments _ (feeding_start messageId model))
    as [Hi Ht Ho He].
  set (h := run (map HandleContent fragments) _) in *.
  rewrite deltas_end, res_end, !events_app, He, Hi, Ht.
  destruct (flush h) as [|t [|]] eqn:Ef;
    try (unfold flush in Ef; destruct (_ && _); discriminate).
  - rewrite app_nil_r. destruct (hasContent h) eqn:Ec; rewrite Ho in Ec;
      destruct (deltas (res h)) as [|d ds]; try discriminate; try reflexivity.
    simpl. now rewrite <- app_assoc.
  - destruct (hasContent h) eqn:Ec; rewrite Ho in Ec;
      destruct (deltas (res h)) as [|d ds]; try discriminate.
    + simpl. rewrite map_app, <- !app_assoc. reflexivity.
    + reflexivity.
Qed.

Lemma types_stream (messageId model : string) (fragments : list string) :
  event_type <$> events (res (stream messageId model fragments)) =
  shape (length (deltas (res (stream messageId model fragments)))).
Proof.
  rewrite events_stream. unfold shape, block.
  assert (Hm : forall ts, event_type <$> map (ContentBlockDelta 0) ts
                          = replicate (length ts) "content_block_delta").
  { induction ts as [|t ts IH]; [reflexivity|]. simpl. now rewrite <- IH. }
  destruct (deltas _) as [|d ds]; [reflexivity|].
  rewrite fmap_cons, fmap_app, fmap_cons, fmap_app, Hm. reflexivity.
Qed.

(** Where each name sits in [shape n]. *)
Lemma shape_lookup (n i : nat) (t : string) :
  shape n !! i = Some t ->
  (i = 0 /\ t = "message_start")
  \/ (n <> 0 /\ i = 1 /\ t = "content_block_start")
  \/ (n <> 0 /\ 2 <= i < n + 2 /\ t = "content_block_delta")
  \/ (n <> 0 /\ i = n + 2 /\ t = "content_block_stop")
  \/ (i = (if decide (n = 0) then 1 else n + 3) /\ t = "message_delta")
  \/ (i = (if decide (n = 0) then 2 else n + 4) /\ t = "message_stop").
Proof.
  destruct n as [|n].
  - destruct i as [|[|[|i]]]; simpl; intros [= <-]; tauto.
  - destruct i as [|[|i]]; [intros [= <-]; tauto | intros [= <-]; right; left; auto |].
    unfold shape. cbn [lookup list_lookup app]. rewrite <- app_assoc.
    intros [H | [Hlen H]]%lookup_app_Some.
    + apply lookup_replicate in H as [-> Hi]. right; right; left.
      repeat split; [discriminate | lia | lia].
    + rewrite length_replicate in Hlen, H.
      destruct (i - S n) as [|[|[|k]]] eqn:E; simpl in H; try discriminate;
        injection H as <-.
      * right; right; right; left. repeat split; [discriminate | lia].
      * right; right; right; right; left.
        destruct (decide (S n = 0)); [discriminate|]. split; [lia | reflexivity].
      * right; right; right; right; right.
        destruct (decide (S n = 0)); [discriminate|]. split; [lia | reflexivity].
Qed.

Lemma shape_block_start (n : nat) :
  n <> 0 -> shape n !! 1 = Some "content_block_start"
            /\ shape n !! 2 = Some "content_block_delta".
Proof. destruct n; [congruence | now split]. Qed.

Lemma shape_block_stop (n : nat) :
  n <> 0 -> shape n !! (n + 2) = Some "content_block_stop".
Proof.
  destruct n as [|n]; [congruence|]. intros _. unfold shape.
  replace (S n + 2) with (S (S (S n))) by lia.
  change (((replicate (S n) "content_block_delta" ++ ["content_block_stop"])
           ++ ["message_delta"; "message_stop"]) !! S n
          = Some "content_block_stop").
  rewrite <- app_assoc, lookup_app_r by (rewrite length_replicate; lia).
  now rewrite length_replicate, Nat.sub_diag.
Qed.

Lemma shape_last (n : nat) : last (shape n) = Some "message_stop".
Proof.
  unfold shape. rewrite app_comm_cons.
  change ["message_delta"; "message_stop"] with (["message_delta"] ++ ["message_stop"]).
  rewrite app_assoc. apply last_snoc.
Qed.

(** *** The input tokens *)

Lemma set_input_step (n : Z) (h : handler) (o : op) :
  set_input n (step h o) = set_input n (step (set_input 0 h) (without_prompt o)).
Proof.
  destruct h as [r i m ci hs tb it hc ti to], o as [|c|u|]; try reflexivity.
  - cbn [step without_prompt]. unfold handleContent.
    cbn [inThinking thinkingBuffer set_input set_tokens res messageId model
         contentIndex hasStarted hasContent totalInputTokens totalOutputTokens].
    destruct (includes think_open c); [reflexivity|].
    destruct it; [destruct (includes think_close c)|]; try reflexivity.
    + cbn zeta. unfold set_thinking at 2 4. cbn [thinkingBuffer].
      destruct (truthy (trim _)); destruct hc; reflexivity.
    + destruct (truthy c); destruct hc; reflexivity.
  - cbn [step without_prompt]. unfold handleUsage, set_input, set_tokens; simpl.
    now rewrite lookup_delete_ne.
  - cbn [step without_prompt]. unfold end_.
    cbn [inThinking thinkingBuffer set_input set_tokens res messageId model
         contentIndex hasStarted hasContent totalInputTokens totalOutputTokens].
    destruct (it && truthy (trim tb)); destruct hc; reflexivity.
Qed.

Lemma without_prompt_idemp (o : op) :
  without_prompt (without_prompt o) = without_prompt o.
Proof.
  destruct o as [|c|u|]; try reflexivity. simpl. f_equal.
  apply map_eq. intros k. destruct (decide (k = "prompt_tokens")) as [->|Hk].
  - now rewrite !lookup_delete_eq.
  - now rewrite !lookup_delete_ne.
Qed.

(** Handlers that differ in their input tokens only stay so, whatever is
    called on them, with or without the [prompt_tokens] of the usage. *)
Lemma set_input_run (ops : list op) (h1 h2 : handler) :
  set_input 0 h1 = set_input 0 h2 ->
  set_input 0 (run ops h1) = set_input 0 (run ops h2)
  /\ set_input 0 (run (map without_prompt ops) h1) = set_input 0 (run ops h2).
Proof.
  revert h1 h2. induction ops as [|o ops IH]; intros h1 h2 H; [now split|].
  cbn [map]. rewrite !run_cons.
  assert (E : set_input 0 (step h1 o) = set_input 0 (step h2 o)).
  { now rewrite (set_input_step 0 h1), (set_input_step 0 h2), H. }
  assert (E' : set_input 0 (step h1 (without_prompt o)) = set_input 0 (step h2 o)).
  { now rewrite (set_input_step 0 h1), (set_input_step 0 h2), H,
      without_prompt_idemp. }
  split; [exact (proj1 (IH _ _ E)) | exact (proj2 (IH _ _ E'))].
Qed.

Lemma res_set_input (n : Z) (h : handler) : res (set_input n h) = res h.
Proof. reflexivity. Qed.

(** *** The log only grows, and its [message_start] events carry no usage *)

Lemma res_step (h : handler) (o : op) :
  exists new, res (step h o) = res h ++ new /\ zero_starts new.
Proof.
  destruct o as [|c|u|]; cbn [step].
  - eexists. split; [reflexivity|]. repeat constructor.
  - unfold handleContent.
    assert (Hs : forall t h0, exists new,
               res (sendContentBlock t h0) = res h0 ++ new /\ zero_starts new).
    { intros t h0. eexists. split; [apply res_sendContentBlock|].
      destruct (hasContent h0); repeat constructor. }
    assert (Hn : exists new : list sink_call, res h = res h ++ new /\ zero_starts new).
    { exists []. split; [now rewrite app_nil_r | constructor]. }
    destruct (includes think_open c); [exact Hn|].
    destruct (inThinking h).
    + destruct (includes think_close c); [|exact Hn].
      cbn zeta. change (res (set_thinking ?x "" ?b)) with (res x).
      destruct (truthy _); [|exact Hn].
      destruct (Hs (trim (thinkingBuffer
                 (set_thinking h (thinkingBuffer h +:+
                    strip_final_newline (replace_first think_close "" c)) false)))
                 (set_thinking h (thinkingBuffer h +:+
                    strip_final_newline (replace_first think_close "" c)) false))
        as (new & Hr & Hz).
      exists new. split; [exact Hr | exact Hz].
    + destruct (truthy c); [apply Hs | exact Hn].
  - exists []. split; [now rewrite app_nil_r | constructor].
  - eexists. split; [apply res_end|].
    destruct (flush h); destruct (hasContent h); repeat constructor.
Qed.

Lemma res_run (ops : list op) (h : handler) :
  exists new, res (run ops h) = res h ++ new /\ zero_starts new.
Proof.
  revert h. induction ops as [|o ops IH]; intros h.
  - exists []. split; [now rewrite app_nil_r | constructor].
  - rewrite run_cons. destruct (IH (step h o)) as (new2 & -> & H2).
    destruct (res_step h o) as (new1 & -> & H1).
    exists (new1 ++ new2). split; [now rewrite app_assoc|].
    unfold zero_starts in *. rewrite events_app. now apply Forall_app.
Qed.

End StreamFacts.

(** ** Theorems on the non-streaming conversion *)

(** C9: converting ["<think>A</think>B"] gives the content array of the two
    text blocks ["A"] and ["B"]; converting ["B"], which holds no marker,
    gives the one block ["B"]; converting the empty string gives the one
    empty text block. *)
Theorem nonstream_examples (messageId model : string) (usage : option (gmap string Z)) :
  NonStream.content
    (NonStream.antigravityToClaudeResponse messageId "<think>A</think>B" model usage)
  = [NonStream.text_block "A"; NonStream.text_block "B"]
  /\ NonStream.content
       (NonStream.antigravityToClaudeResponse messageId "B" model usage)
     = [NonStream.text_block "B"]
  /\ NonStream.content
       (NonStream.antigravityToClaudeResponse messageId "" model usage)
     = [NonStream.text_block ""].
Proof. repeat split. Qed.

(** C6, as the specification states it, fails: for ["<think>abc"], whose
    opening marker is never closed, the conversion builds the single visible
    block ["<think>abc"], marker included, and no block holding the reasoning
    text ["abc"]. *)
Lemma nonstream_unterminated_is_reasoning_fails :
  NonStream.content_blocks "<think>abc" = [NonStream.text_block "<think>abc"]
  /\ ~ (forall pre post : string,
          includes think_open pre = false ->
          includes think_close post = false ->
          truthy (trim post) = true ->
          exists b, b ∈ NonStream.content_blocks (pre +:+ think_open +:+ post)
                    /\ NonStream.text b = trim post).
Proof.
  split; [reflexivity|]. intros H.
  destruct (H "" "abc" eq_refl eq_refl eq_refl) as (b & Hb & Ht).
  apply list_elem_of_singleton in Hb. subst b. discriminate Ht.
Qed.

(** C6, amended: when no closing marker follows the first opening marker of
    the input, the conversion builds no reasoning block; its content is the
    single text block holding the whole input verbatim, the unmatched marker
    included. *)
Theorem nonstream_unterminated_is_literal
    (messageId model : string) (usage : option (gmap string Z)) (pre post : string) :
  includes think_open pre = false ->
  includes think_close post = false ->
  NonStream.content
    (NonStream.antigravityToClaudeResponse messageId
       (pre +:+ think_open +:+ post) model usage)
  = [NonStream.text_block (pre +:+ think_open +:+ post)].
Proof.
  intros Hpre Hpost.
  change (NonStream.content_blocks (pre +:+ think_open +:+ post)
          = [NonStream.text_block (pre +:+ think_open +:+ post)]).
  unfold NonStream.content_blocks.
  rewrite (NonStreamFacts.think_regex_exec_unterminated _ _ Hpre Hpost).
  destruct pre; reflexivity.
Qed.

Lemma nonstream_unterminated_is_literal_witness :
  NonStream.content
    (NonStream.antigravityToClaudeResponse "msg_1" ("Hi " +:+ think_open +:+ "abc")
       "m" None)
  = [NonStream.text_block ("Hi " +:+ think_open +:+ "abc")].
Proof.
  apply (nonstream_unterminated_is_literal "msg_1" "m" None "Hi " "abc");
    reflexivity.
Defined.

(** ** Theorems on the streaming handler: markers *)

Section Markers.
Import JsStringFacts MarkerFacts StreamFacts Stream.

Lemma deltas_stream (messageId model : string) (fragments : list string) :
  deltas (res (stream messageId model fragments)) =
  let h := run (map HandleContent fragments) (start (constructor [] messageId model)) in
  deltas (res h) ++ flush h.
Proof.
  unfold stream. rewrite run_app, run_app. cbn [run foldl step].
  change (foldl step ?h ?l) with (run l h). apply deltas_end.
Qed.

(** The deltas of a response made of one aligned reasoning segment. *)
Lemma deltas_stream_segment (messageId model : string) (x0 : string)
    (ms : list string) (xk : string) (ys : list string) :
  Forall marker_free ms -> marker_free xk ->
  Forall (fun y => includes think_open y = false) ys ->
  deltas (res (stream messageId model (segment x0 ms xk ys))) =
  (let r := trim (reasoning_text x0 ms xk) in if truthy r then [r] else [])
  ++ List.filter truthy ys.
Proof.
  intros Hms Hk Hys. rewrite deltas_stream. cbn zeta.
  destruct (deltas_segment (start (constructor [] messageId model)) x0 ms xk ys
              Hms Hk Hys) as [Hd Hi].
  rewrite Hd. unfold flush. rewrite Hi. simpl. now rewrite app_nil_r.
Qed.

(** C1, as the specification states it, fails: the deltas depend on where
    the text ["<think>a</think>b"] is cut.  Fed in one piece it gives the one
    delta ["a</think>b"]; cut inside the opening marker it gives the two
    pieces as they are; the cut ["<think>a"], ["</think>"], ["b"] gives the
    deltas ["a"] and ["b"].  So the deltas of a cut are not always the two
    texts [X] and [Y], not even as a set. *)
Lemma split_marker_robustness_fails :
  deltas (res (stream "msg_1" "m" ["<think>a</think>b"])) = ["a</think>b"]
  /\ deltas (res (stream "msg_1" "m" ["<thi"; "nk>a</think>b"]))
     = ["<thi"; "nk>a</think>b"]
  /\ deltas (res (stream "msg_1" "m" ["<think>a"; "</think>"; "b"])) = ["a"; "b"]
  /\ ~ (forall (X Y : string) (fragments : list string),
          join fragments = think_open +:+ X +:+ think_close +:+ Y ->
          forall t, t ∈ deltas (res (stream "msg_1" "m" fragments))
                    <-> t = X \/ t = Y).
Proof.
  repeat match goal with |- _ /\ _ => split end; try reflexivity.
  intros H.
  specialize (H "a" "b" ["<think>a</think>b"] eq_refl "a").
  apply proj2 in H. specialize (H (or_introl eq_refl)).
  apply list_elem_of_singleton in H. discriminate H.
Qed.

(** C1, amended: take a cut of [<think>X</think>Y] in which the opening
    marker begins the first fragment, the closing marker ends a later
    fragment, and neither is cut: the fragments are [<think>x0], [ms],
    [xk</think>] and [ys], with [X] the text [x0 ms xk] and [Y] the text
    [ys].  When [X] holds no marker, has no white space at its ends and is
    not empty, [x0] does not end in a line feed, and [Y] holds no opening
    marker, the deltas are [X] followed by the non-empty fragments of [Y],
    one delta each, which together spell [Y]. *)
Theorem aligned_split_deltas (messageId model : string) (x0 : string)
    (ms : list string) (xk : string) (ys : list string) :
  let X := x0 +:+ join ms +:+ xk in
  let Y := join ys in
  marker_free X ->
  includes think_open Y = false ->
  trim X = X -> X <> "" ->
  strip_final_newline x0 = x0 ->
  join (segment x0 ms xk ys) = think_open +:+ X +:+ think_close +:+ Y
  /\ deltas (res (stream messageId model (segment x0 ms xk ys)))
     = X :: List.filter truthy ys
  /\ join (List.filter truthy ys) = Y.
Proof.
  intros X Y [HXo HXc] HY Htrim Hne Hx0.
  apply includes_false in HXo, HXc, HY.
  assert (Hms : Forall marker_free ms).
  { apply index_of_app_r, index_of_app_l in HXo, HXc.
    apply index_of_join in HXo, HXc. rewrite Forall_forall in HXo, HXc.
    apply Forall_forall. intros m Hm. split; apply includes_false; auto. }
  assert (Hk : marker_free xk).
  { split; apply includes_false.
    - exact (index_of_app_r _ _ _ (index_of_app_r _ _ _ HXo)).
    - exact (index_of_app_r _ _ _ (index_of_app_r _ _ _ HXc)). }
  assert (Hys : Forall (fun y => includes think_open y = false) ys).
  { apply index_of_join in HY. eapply Forall_impl; [exact HY|].
    intros y. apply includes_false. }
  assert (Hxk : strip_final_newline xk = xk).
  { apply (strip_final_newline_trimmed (x0 +:+ join ms)).
    now rewrite append_assoc. }
  split; [|split].
  - unfold segment, X, Y. cbn [join].
    rewrite join_app, join_app. cbn [join].
    now rewrite append_nil_r, !append_assoc.
  - rewrite (deltas_stream_segment _ _ _ _ _ _ Hms Hk Hys). cbn zeta.
    unfold reasoning_text. rewrite Hx0, Hxk. fold X. rewrite Htrim.
    apply truthy_true in Hne. now rewrite Hne.
  - apply join_filter_truthy.
Qed.

Lemma aligned_split_deltas_witness :
  join (segment "Step " ["one"; " and"] " two" ["Hello"; ""; " world"])
  = think_open +:+ "Step one and two" +:+ think_close +:+ "Hello world"
  /\ deltas (res (stream "msg_1" "m"
                    (segment "Step " ["one"; " and"] " two" ["Hello"; ""; " world"])))
     = ["Step one and two"; "Hello"; " world"]
  /\ join (List.filter truthy ["Hello"; ""; " world"]) = "Hello world".
Proof.
  apply (aligned_split_deltas "msg_1" "m" "Step " ["one"; " and"] " two"
           ["Hello"; ""; " world"]);
    [split; reflexivity | reflexivity | reflexivity | discriminate | reflexivity].
Defined.

(** C8, as the specification states it, fails: white space next to a
    marker other than one line feed is not kept.  The reasoning text ["  a"]
    is written as ["a"]; and the line feed that ends the opening fragment
    ["<think>a\n"] is dropped although the reasoning text goes on after it. *)
Lemma marker_newline_stripping_fails :
  deltas (res (stream "msg_1" "m" ["<think>  a"; "</think>"])) = ["a"]
  /\ deltas (res (stream "msg_1" "m"
                    ["<think>a" +:+ String LF ""; "b"; "</think>"])) = ["ab"]
  /\ ~ (forall x : string,
          marker_free x -> x <> "" ->
          first_char x <> Some LF -> last_char x <> Some LF ->
          deltas (res (stream "msg_1" "m" [think_open +:+ x; think_close])) = [x]).
Proof.
  repeat split. intros H.
  specialize (H "  a"). discriminate H; try discriminate. split; reflexivity.
Qed.

(** C8, amended: the fragment that holds the opening marker and the
    fragment that holds the closing marker lose their first marker, wherever
    it is in the fragment, and then one line feed at the very end of what is
    left of the fragment, if that ends in one; so ["a\n<think>"] loses its
    line feed, which is not at the end of the fragment.  What is left of both
    fragments, with the fragments between them, is the reasoning text: it
    is written as one delta with all the white space at its two ends trimmed
    off and everything between kept as it is (no delta when nothing is
    left).  Fragments without opening marker in front of the segment and
    behind it are written verbatim. *)
Theorem marker_fragment_whitespace (messageId model : string) (vs : list string)
    (p0 x0 : string) (ms : list string) (pk xk : string) (ys : list string) :
  Forall (fun y => includes think_open y = false) vs ->
  includes think_open p0 = false ->
  Forall marker_free ms ->
  includes think_open (pk +:+ think_close +:+ xk) = false ->
  includes think_close pk = false ->
  Forall (fun y => includes think_open y = false) ys ->
  let rest0 := p0 +:+ x0 in
  let restk := pk +:+ xk in
  let cut0 := strip_final_newline rest0 in
  let cutk := strip_final_newline restk in
  let buffer := cut0 +:+ join ms +:+ cutk in
  deltas (res (stream messageId model
                 (vs ++ (p0 +:+ think_open +:+ x0) :: ms
                     ++ [pk +:+ think_close +:+ xk] ++ ys)))
  = List.filter truthy vs
    ++ (if truthy (trim buffer) then [trim buffer] else [])
    ++ List.filter truthy ys
  /\ (rest0 = cut0 +:+ String LF "" \/ (rest0 = cut0 /\ last_char rest0 <> Some LF))
  /\ (restk = cutk +:+ String LF "" \/ (restk = cutk /\ last_char restk <> Some LF))
  /\ (exists l r, buffer = l +:+ trim buffer +:+ r
                  /\ all_space l = true /\ all_space r = true)
  /\ (forall c, first_char (trim buffer) = Some c \/ last_char (trim buffer) = Some c ->
                is_space c = false).
Proof.
  intros Hvs Hp0 Hms Hko Hpk Hys rest0 restk cut0 cutk buffer.
  repeat match goal with |- _ /\ _ => split end.
  - exact (deltas_stream_general _ _ _ _ _ _ _ _ _ Hvs Hp0 Hms Hko Hpk Hys).
  - destruct (strip_final_newline_cases rest0) as [[? ?]|?]; [right | left]; auto.
  - destruct (strip_final_newline_cases restk) as [[? ?]|?]; [right | left]; auto.
  - apply trim_split.
  - apply trim_ends.
Qed.

Lemma marker_fragment_whitespace_witness :
  deltas (res (stream "msg_1" "m"
                 ([" Hi "] ++ (("a" +:+ String LF "") +:+ think_open +:+ "")
                    :: [" b "]
                    ++ ["c" +:+ think_close +:+ (" d " +:+ String LF "")]
                    ++ [" Hello "; ""])))
  = [" Hi "; "a b c d"; " Hello "].
Proof.
  refine (proj1 (marker_fragment_whitespace "msg_1" "m" [" Hi "]
                   ("a" +:+ String LF "") "" [" b "] "c" (" d " +:+ String LF "")
                   [" Hello "; ""] _ _ _ _ _ _)).
  - repeat constructor.
  - reflexivity.
  - repeat constructor.
  - reflexivity.
  - reflexivity.
  - repeat constructor.
Defined.

(** C2, as the specification states it, fails on both rules.  In normal
    mode the fragment ["Hi<think>a"] writes nothing: the text ["Hi"] in front
    of the marker joins the reasoning buffer.  Inside a reasoning segment the
    fragment ["b</think>c"] writes the one delta ["abc"]: the text ["c"]
    behind the marker is part of the reasoning text and is not written as a
    visible delta. *)
Lemma classifier_marker_rules_fail :
  let h := start (constructor [] "msg_1" "m") in
  res (handleContent "Hi<think>a" h) = res h
  /\ thinkingBuffer (handleContent "Hi<think>a" h) = "Hia"
  /\ deltas (res (handleContent "b</think>c" (handleContent "<think>a" h))) = ["abc"]
  /\ ~ (forall (h : handler) (pre post : string),
          inThinking h = false -> pre <> "" -> includes think_open pre = false ->
          deltas (res (handleContent (pre +:+ think_open +:+ post) h))
          = deltas (res h) ++ [pre])
  /\ ~ (forall (h : handler) (pre post : string),
          inThinking h = true -> post <> "" -> marker_free pre -> marker_free post ->
          post ∈ deltas (res (handleContent (pre +:+ think_close +:+ post) h))).
Proof.
  cbn zeta. repeat split.
  - intros H.
    specialize (H (start (constructor [] "msg_1" "m")) "Hi" "a").
    discriminate H; [reflexivity | discriminate | reflexivity].
  - intros H.
    specialize (H (handleContent "<think>a" (start (constructor [] "msg_1" "m")))
                  "b" "c").
    assert (Hin : "c" ∈ ["abc"]).
    { apply H; [reflexivity | discriminate | split; reflexivity | split; reflexivity]. }
    apply list_elem_of_singleton in Hin. discriminate Hin.
Qed.

(** C2, amended: a fragment that holds the opening marker writes nothing,
    in either mode; the fragment without its first opening marker and without
    one final line feed, that is the text in front of the marker joined to
    the text behind it, replaces the reasoning buffer, and the mode becomes
    in-reasoning.  Inside a reasoning segment, a fragment that holds the
    closing marker and no opening marker is appended to the buffer without
    its first closing marker and without one final line feed; the mode
    returns to normal, the trimmed buffer is written as one delta unless it
    is empty, and the buffer is cleared.  No part of either fragment is
    classified again. *)
Theorem marker_fragment_rules (h : handler) (pre post : string) :
  (includes think_open pre = false ->
   handleContent (pre +:+ think_open +:+ post) h
   = set_thinking h (strip_final_newline (pre +:+ post)) true)
  /\ (inThinking h = true ->
      includes think_open (pre +:+ think_close +:+ post) = false ->
      includes think_close pre = false ->
      let r := trim (thinkingBuffer h +:+ strip_final_newline (pre +:+ post)) in
      let h' := handleContent (pre +:+ think_close +:+ post) h in
      deltas (res h') = deltas (res h) ++ (if truthy r then [r] else [])
      /\ inThinking h' = false
      /\ thinkingBuffer h' = "").
Proof.
  split.
  - intros Hpre.
    rewrite (handleContent_open _ _ (includes_open_mid pre post)).
    now rewrite (replace_first_open _ _ Hpre).
  - intros Hin Ho Hpre. cbn zeta.
    destruct (deltas_close _ _ Ho Hin (includes_close_mid pre post)) as [Hd Hi].
    rewrite (replace_first_close _ _ Hpre) in Hd.
    repeat split; [exact Hd | exact Hi |].
    now rewrite (handleContent_close _ _ Ho Hin (includes_close_mid pre post)).
Qed.

Lemma marker_fragment_rules_witness :
  let h := handleContent "<think>a" (start (constructor [] "msg_1" "m")) in
  handleContent ("b" +:+ think_open +:+ "c") h = set_thinking h "bc" true
  /\ deltas (res (handleContent ("b" +:+ think_close +:+ "c") h)) = ["abc"]
  /\ inThinking (handleContent ("b" +:+ think_close +:+ "c") h) = false
  /\ thinkingBuffer (handleContent ("b" +:+ think_close +:+ "c") h) = "".
Proof.
  cbn zeta.
  destruct (marker_fragment_rules
              (handleContent "<think>a" (start (constructor [] "msg_1" "m")))
              "b" "c") as [Ha Hb].
  split; [apply Ha; reflexivity | apply Hb; reflexivity].
Defined.

(** C7, as the specification states it, fails: in normal mode the fragment
    ["</think><think>"], whose closing marker has no opening marker in front
    of it, writes nothing; the opening marker behind it starts a reasoning
    segment and the text ["</think>"] becomes the reasoning buffer. *)
Lemma unmatched_close_before_open_fails :
  let h := start (constructor [] "msg_1" "m") in
  deltas (res (handleContent "</think><think>" h)) = []
  /\ thinkingBuffer (handleContent "</think><think>" h) = "</think>"
  /\ ~ (forall (h : handler) (pre post : string),
          inThinking h = false -> includes think_open pre = false ->
          deltas (res (handleContent (pre +:+ think_close +:+ post) h))
          = deltas (res h) ++ [pre +:+ think_close +:+ post]).
Proof.
  cbn zeta. repeat split. intros H.
  specialize (H (start (constructor [] "msg_1" "m")) "" "<think>").
  discriminate H; reflexivity.
Qed.

(** C7, amended: in normal mode a fragment that holds a closing marker and
    no opening marker anywhere is written as it is, marker included, as one
    delta: the call is that of [sendContentBlock] on the fragment. *)
Theorem unmatched_close_is_literal (h : handler) (c : string) :
  inThinking h = false ->
  includes think_open c = false ->
  includes think_close c = true ->
  handleContent c h = sendContentBlock c h
  /\ deltas (res (handleContent c h)) = deltas (res h) ++ [c].
Proof.
  intros Hin Ho Hc.
  assert (E : handleContent c h = sendContentBlock c h).
  { rewrite (handleContent_visible _ _ Ho Hin). now destruct c. }
  split; [exact E|]. rewrite E. apply deltas_sendContentBlock.
Qed.

Lemma unmatched_close_is_literal_witness :
  let h := start (constructor [] "msg_1" "m") in
  handleContent "done</think> bye" h = sendContentBlock "done</think> bye" h
  /\ deltas (res (handleContent "done</think> bye" h)) = deltas (res h) ++ ["done</think> bye"].
Proof.
  apply (unmatched_close_is_literal (start (constructor [] "msg_1" "m"))
           "done</think> bye"); reflexivity.
Defined.

End Markers.

(** ** Theorems on the streaming handler: life cycle and usage *)

Section Lifecycle.
Import JsStringFacts StreamFacts Stream.

(** C3: in the events written for [start()], any fragments and [end()],
    [message_start] is the first, so [content_block_start] never precedes it;
    [content_block_start] is written at most once, only when a delta is, and
    immediately before the first [content_block_delta];
    [content_block_stop] is written if and only if [content_block_start] was,
    after every delta and before [message_delta]; and [message_stop] is the
    last event. *)
Theorem event_order (messageId model : string) (fragments : list string) :
  let types := event_type <$> events (res (stream messageId model fragments)) in
  types !! 0 = Some "message_start"
  /\ (forall i, types !! i = Some "content_block_start" ->
        exists j, j < i /\ types !! j = Some "message_start")
  /\ (forall i j, types !! i = Some "content_block_start" ->
        types !! j = Some "content_block_start" -> i = j)
  /\ (forall i, types !! i = Some "content_block_start" ->
        types !! S i = Some "content_block_delta")
  /\ (forall j, types !! j = Some "content_block_delta" ->
        exists i, i < j /\ types !! i = Some "content_block_start")
  /\ ("content_block_stop" ∈ types <-> "content_block_start" ∈ types)
  /\ (forall i j, types !! i = Some "content_block_stop" ->
        types !! j = Some "content_block_delta" -> j < i)
  /\ (forall i j, types !! i = Some "content_block_stop" ->
        types !! j = Some "message_delta" -> i < j)
  /\ last types = Some "message_stop".
Proof.
  cbn zeta. rewrite types_stream. generalize (length (deltas (res
    (stream messageId model fragments)))). intros n.
  repeat match goal with |- _ /\ _ => split end.
  - reflexivity.
  - intros i Hi. exists 0. split; [|reflexivity].
    apply shape_lookup in Hi. intuition (try discriminate; lia).
  - intros i j Hi Hj. apply shape_lookup in Hi, Hj.
    intuition (try discriminate; lia).
  - intros i Hi. apply shape_lookup in Hi.
    destruct Hi as [[_ [=]]|[(Hn & -> & _)|[(_ & _ & [=])|[(_ & _ & [=])|[[_ [=]]|[_ [=]]]]]]].
    now apply shape_block_start.
  - intros j Hj. apply shape_lookup in Hj.
    destruct Hj as [[_ [=]]|[(_ & _ & [=])|[(Hn & Hj & _)|[(_ & _ & [=])|[[_ [=]]|[_ [=]]]]]]].
    exists 1. split; [lia | now apply shape_block_start].
  - split; intros [i Hi]%list_elem_of_lookup; apply shape_lookup in Hi;
      apply list_elem_of_lookup.
    + destruct Hi as [[_ [=]]|[(_ & _ & [=])|[(_ & _ & [=])|[(Hn & _ & _)|[[_ [=]]|[_ [=]]]]]]].
      exists 1. now apply shape_block_start.
    + destruct Hi as [[_ [=]]|[(Hn & _ & _)|[(_ & _ & [=])|[(_ & _ & [=])|[[_ [=]]|[_ [=]]]]]]].
      exists (n + 2). now apply shape_block_stop.
  - intros i j Hi Hj. apply shape_lookup in Hi, Hj.
    intuition (try discriminate; lia).
  - intros i j Hi Hj. apply shape_lookup in Hi, Hj.
    destruct (decide (n = 0)); intuition (try discriminate; lia).
  - apply shape_last.
Qed.

(** C4, as the specification states it, fails: the handler keeps no record
    of having ended.  After a response with the one fragment ["Hello"] a
    second [end()] writes [content_block_stop], [message_delta] and
    [message_stop] once more, and the fragment ["late"] fed to this handler
    after [end()] is written as a delta. *)
Lemma second_end_is_silent_fails :
  let h := stream "msg_1" "m" ["Hello"] in
  events (res (end_ h))
  = events (res h) ++ [ContentBlockStop 0; MessageDelta "end_turn" 0; MessageStop]
  /\ events (res (handleContent "late" h))
     = events (res h) ++ [ContentBlockDelta 0 "late"]
  /\ ~ (forall (messageId model : string) (fragments : list string),
          events (res (end_ (stream messageId model fragments)))
          = events (res (stream messageId model fragments))).
Proof.
  cbn zeta. repeat split. intros H.
  specialize (H "msg_1" "m" []). discriminate H.
Qed.

(** C4, amended: [end()] is not guarded against a second call.  Called
    again on a handler that has ended, it writes the terminal events once
    more: the unfinished reasoning text, if there is one, as a delta (the
    buffer is not cleared by [end()]), [content_block_stop] if a block is
    open, [message_delta] with the same output tokens and [message_stop];
    and it calls [res.end()] again.  [handleContent] is not guarded either:
    [end()] leaves the mode and the reasoning buffer as they are, and after
    it a non-empty fragment without opening marker, handled in normal mode,
    is still written as a delta, behind a [content_block_start] if no block
    was open.  Ending once, and feeding nothing afterwards, is left to the
    caller. *)
Theorem end_is_not_guarded (h : handler) (c : string) :
  res (end_ (end_ h)) =
  res (end_ h)
  ++ map (fun t => Write (ContentBlockDelta (contentIndex h) t)) (flush h)
  ++ (if hasContent (end_ h) then [Write (ContentBlockStop (contentIndex h))] else [])
  ++ [Write (MessageDelta "end_turn" (totalOutputTokens h)); Write MessageStop; End]
  /\ inThinking (end_ h) = inThinking h
  /\ thinkingBuffer (end_ h) = thinkingBuffer h
  /\ (inThinking h = false -> includes think_open c = false -> c <> "" ->
      res (handleContent c (end_ h)) =
      res (end_ h)
      ++ (if hasContent h then [] else [Write (ContentBlockStart (contentIndex h) "")])
      ++ [Write (ContentBlockDelta (contentIndex h) c)]).
Proof.
  repeat match goal with |- _ /\ _ => split end.
  - rewrite (res_end (end_ h)).
    destruct h as [r i m ci hs tb it hc ti to].
    unfold flush, end_.
    cbn [inThinking thinkingBuffer hasContent contentIndex totalOutputTokens res].
    destruct (it && truthy (trim tb)) eqn:E; destruct hc; simpl; rewrite ?E;
      reflexivity.
  - destruct h as [r i m ci hs tb it hc ti to]. unfold end_.
    cbn [inThinking thinkingBuffer hasContent]. destruct (it && _); destruct hc;
      reflexivity.
  - destruct h as [r i m ci hs tb it hc ti to]. unfold end_.
    cbn [inThinking thinkingBuffer hasContent]. destruct (it && _); destruct hc;
      reflexivity.
  - intros Hin Ho Hc. apply truthy_true in Hc.
    assert (Hin' : inThinking (end_ h) = false).
    { rewrite <- Hin. destruct h as [r i m ci hs tb it hc ti to]. unfold end_.
      cbn [inThinking thinkingBuffer hasContent]. destruct (it && _); destruct hc;
        reflexivity. }
    rewrite (handleContent_visible _ _ Ho Hin'), Hc, res_sendContentBlock.
    destruct h as [r i m ci hs tb it hc ti to]. cbn [inThinking] in Hin. subst it.
    unfold end_. cbn [inThinking thinkingBuffer hasContent andb].
    destruct hc; reflexivity.
Qed.

Lemma end_is_not_guarded_witness :
  let h := stream "msg_1" "m" ["Hello"; ""] in
  res (handleContent "late" (end_ h)) =
  res (end_ h)
  ++ (if hasContent h then [] else [Write (ContentBlockStart (contentIndex h) "")])
  ++ [Write (ContentBlockDelta (contentIndex h) "late")].
Proof.
  cbn zeta.
  apply (proj2 (proj2 (proj2 (end_is_not_guarded (stream "msg_1" "m" ["Hello"; ""])
                                "late"))));
    [reflexivity | reflexivity | discriminate].
Defined.

(** C5, as the specification states it, fails on the names of the
    properties: the handler reads [prompt_tokens] and [completion_tokens].
    A usage object with the properties [promptTokens] and [completionTokens]
    leaves both counts at zero, and [message_delta] carries
    [output_tokens = 0], not 34. *)
Lemma usage_camel_case_fails :
  let usage : gmap string Z :=
    <["promptTokens" := 12%Z]> (<["completionTokens" := 34%Z]> ∅) in
  let log := res (run [Start; HandleUsage usage; EndOp]
                      (constructor [] "msg_1" "m")) in
  events log = [MessageStart "msg_1" "m" 0 0; MessageDelta "end_turn" 0; MessageStop]
  /\ ~ (exists stop_reason, MessageDelta stop_reason 34 ∈ events log).
Proof.
  cbn zeta.
  assert (E : events (res (run [Start;
                 HandleUsage (<["promptTokens" := 12%Z]>
                                (<["completionTokens" := 34%Z]> ∅));
                 EndOp] (constructor [] "msg_1" "m")))
              = [MessageStart "msg_1" "m" 0 0; MessageDelta "end_turn" 0; MessageStop])
    by (vm_compute; reflexivity).
  split; [exact E|]. rewrite E. intros [sr H].
  repeat (apply elem_of_cons in H as [H|H]; [discriminate H|]).
  now apply elem_of_nil in H.
Qed.

(** C5, amended: [handleUsage] with the usage object
    [{prompt_tokens: 12, completion_tokens: 34}] followed by [end()] writes a
    [message_delta] whose [output_tokens] is 34, and in general the
    [completion_tokens] of the last usage object, zero when it has none; the
    [message_start] written by [start()] carries the usage [{0, 0}] whatever
    is called later; and of several calls of [handleUsage] the last one
    wins. *)
Theorem usage_accounting :
  (forall h : handler,
     exists log,
       res (end_ (handleUsage
                    (<["prompt_tokens" := 12%Z]> (<["completion_tokens" := 34%Z]> ∅)) h))
       = log ++ [Write (MessageDelta "end_turn" 34); Write MessageStop; End])
  /\ (forall (usage : gmap string Z) (h : handler),
        exists log,
          res (end_ (handleUsage usage h))
          = log ++ [Write (MessageDelta "end_turn"
                             (or_zero (usage !! "completion_tokens")));
                    Write MessageStop; End])
  /\ (forall (messageId model : string) (ops : list op),
        head (events (res (run (Start :: ops) (constructor [] messageId model))))
        = Some (MessageStart messageId model 0 0))
  /\ (forall (usage1 usage2 : gmap string Z) (h : handler),
        handleUsage usage2 (handleUsage usage1 h) = handleUsage usage2 h).
Proof.
  assert (Hgen : forall (usage : gmap string Z) (h : handler),
        exists log,
          res (end_ (handleUsage usage h))
          = log ++ [Write (MessageDelta "end_turn"
                             (or_zero (usage !! "completion_tokens")));
                    Write MessageStop; End]).
  { intros usage h. rewrite res_end. eexists. rewrite app_assoc. reflexivity. }
  repeat match goal with |- _ /\ _ => split end.
  - intros h. exact (Hgen _ h).
  - exact Hgen.
  - intros messageId model ops. rewrite run_cons.
    destruct (res_run ops (step (constructor [] messageId model) Start))
      as (new & -> & _).
    now rewrite events_app.
  - intros usage1 usage2 h. reflexivity.
Qed.

(** C10: the input tokens recorded by [handleUsage] reach no event.
    Whatever is called on a handler, in whatever order, the calls made on
    the response object are the same for every count of input tokens the
    handler starts with, and the same when the [prompt_tokens] property is
    removed from every usage object; and every [message_start] written
    carries the usage [{input_tokens: 0, output_tokens: 0}].  The only other
    event with a usage, [message_delta], has the one field [output_tokens]. *)
Theorem input_tokens_unobservable :
  (forall (ops : list op) (h : handler) (n : Z),
     res (run ops (set_input n h)) = res (run ops h))
  /\ (forall (ops : list op) (h : handler),
        res (run (map without_prompt ops) h) = res (run ops h))
  /\ (forall (ops : list op) (messageId model : string),
        Forall zero_start
          (events (res (run ops (constructor [] messageId model))))).
Proof.
  repeat match goal with |- _ /\ _ => split end.
  - intros ops h n.
    rewrite <- (res_set_input 0 (run ops (set_input n h))),
            <- (res_set_input 0 (run ops h)).
    f_equal. apply set_input_run. now destruct h.
  - intros ops h.
    rewrite <- (res_set_input 0 (run (map without_prompt ops) h)),
            <- (res_set_input 0 (run ops h)).
    f_equal. now apply set_input_run.
  - intros ops messageId model.
    destruct (res_run ops (constructor [] messageId model)) as (new & -> & H).
    exact H.
Qed.

End Lifecycle.

(** ** Further facts about the streaming handler *)

Module ReachedFacts.
Import JsStringFacts StreamFacts Stream StreamObs.

Lemma reached_constructor (messageId model : string) :
  reached (constructor [] messageId model).
Proof. split; try reflexivity; try (now left); constructor. Qed.

Lemma reached_set_thinking_in (h : handler) (buf : string) :
  reached h -> reached (set_thinking h buf true).
Proof. intros [? ? ? ? ? ?]. split; try assumption. now right. Qed.

Lemma reached_set_thinking_out (h : handler) :
  reached h -> reached (set_thinking h "" false).
Proof. intros [? ? ? ? ? ?]. split; try assumption. now left. Qed.

Lemma reached_set_thinking_any (h : handler) (buf : string) (b : bool) :
  reached h -> reached (set_thinking (set_thinking h buf b) "" false).
Proof. intros [? ? ? ? ? ?]. split; try assumption. now left. Qed.

Lemma reached_set_tokens (h : handler) (i o : Z) :
  reached h -> reached (set_tokens h i o).
Proof. intros [? ? ? ? ? ?]. split; assumption. Qed.

Lemma reached_set_hasStarted (h : handler) (b : bool) :
  reached h -> reached (set_hasStarted h b).
Proof. intros [? ? ? ? ? ?]. split; assumption. Qed.

Lemma reached_end_call (h : handler) :
  reached h -> reached (set_res h (res h ++ [End])).
Proof.
  intros [Hi Hb Ho Hk Hd Hs]. split; cbn [res set_res contentIndex thinkingBuffer
    inThinking hasContent]; rewrite ?events_app, ?deltas_app; simpl;
    rewrite ?app_nil_r; assumption.
Qed.

Lemma reached_write (h : handler) (e : event) :
  neutral (contentIndex h) e -> reached h -> reached (writeClaudeStreamEvent h e).
Proof.
  intros He [Hi Hb Ho Hk Hd Hs]. unfold writeClaudeStreamEvent.
  split; cbn [res set_res contentIndex thinkingBuffer inThinking hasContent];
    rewrite ?events_app, ?deltas_app, ?List.filter_app; try assumption.
  - destruct e; simpl in *; rewrite ?app_nil_r; try assumption; contradiction.
  - destruct e; simpl in *; rewrite ?app_nil_r; try assumption; contradiction.
  - destruct e; simpl in *; rewrite ?app_nil_r; try assumption; contradiction.
  - apply Forall_app. split; [assumption|]. repeat constructor.
    destruct e; simpl in *; try exact I; congruence.
Qed.

Lemma reached_sendContentBlock (h : handler) (t : string) :
  truthy t = true -> reached h -> reached (sendContentBlock t h).
Proof.
  intros Ht [Hi Hb Ho Hk Hd Hs].
  assert (Hc : hasContent (sendContentBlock t h) = true)
    by (destruct h as [r i m ci hs tb it [|] ti to]; reflexivity).
  split.
  - destruct h as [r i m ci hs tb it [|] ti to]; exact Hi.
  - destruct h as [r i m ci hs tb it [|] ti to]; exact Hb.
  - rewrite Hc, deltas_sendContentBlock. now destruct (deltas (res h)).
  - rewrite Hc, deltas_sendContentBlock, res_sendContentBlock, !events_app,
      !List.filter_app, Hk, Hi, map_app.
    destruct (hasContent h) eqn:E; simpl; [reflexivity|].
    rewrite Ho in E. now destruct (deltas (res h)).
  - rewrite deltas_sendContentBlock. apply Forall_app. split; [assumption|].
    now repeat constructor.
  - rewrite res_sendContentBlock, !events_app. repeat (apply Forall_app; split).
    + assumption.
    + destruct (hasContent h); repeat constructor.
    + repeat constructor.
Qed.

Lemma sendContentBlock_set_thinking (t : string) (h : handler) (buf buf' : string)
    (b b' : bool) :
  set_thinking (sendContentBlock t (set_thinking h buf b)) buf' b'
  = set_thinking (sendContentBlock t h) buf' b'.
Proof. destruct h as [r i m ci hs tb it [|] ti to]; reflexivity. Qed.

Lemma reached_step (h : handler) (o : op) : reached h -> reached (step h o).
Proof.
  intros H. destruct o as [|c|u|]; cbn [step].
  - unfold start. apply reached_set_hasStarted. now apply reached_write.
  - destruct (includes think_open c) eqn:Eo.
    { rewrite (handleContent_open _ _ Eo). now apply reached_set_thinking_in. }
    destruct (inThinking h) eqn:Hin.
    + destruct (includes think_close c) eqn:Ec.
      * rewrite (handleContent_close _ _ Eo Hin Ec). cbn zeta.
        destruct (truthy (trim _)) eqn:Et.
        -- rewrite sendContentBlock_set_thinking.
           apply reached_set_thinking_out. now apply reached_sendContentBlock.
        -- now apply reached_set_thinking_any.
      * rewrite (handleContent_more _ _ Eo Hin Ec). now apply reached_set_thinking_in.
    + rewrite (handleContent_visible _ _ Eo Hin).
      destruct (truthy c) eqn:Et; [now apply reached_sendContentBlock | exact H].
  - now apply reached_set_tokens.
  - unfold end_. apply reached_end_call.
    set (h1 := if inThinking h && truthy (trim (thinkingBuffer h))
               then sendContentBlock (trim (thinkingBuffer h)) h else h).
    assert (H1 : reached h1).
    { subst h1. destruct (inThinking h); [|exact H]. simpl.
      destruct (truthy (trim _)) eqn:Et; [now apply reached_sendContentBlock | exact H]. }
    set (h2 := if hasContent h1
               then writeClaudeStreamEvent h1 (ContentBlockStop (contentIndex h1))
               else h1).
    assert (H2 : reached h2).
    { subst h2. destruct (hasContent h1); [|exact H1]. now apply reached_write. }
    apply reached_write; [exact I|]. now apply reached_write.
Qed.

Lemma reached_run (ops : list op) (h : handler) : reached h -> reached (run ops h).
Proof.
  revert h. induction ops as [|o ops IH]; intros h H; [exact H|].
  rewrite run_cons. apply IH. now apply reached_step.
Qed.

End ReachedFacts.

Module UsageFacts.
Import JsStringFacts StreamFacts Stream.

Lemma handleUsage_handleContent (usage : gmap string Z) (c : string) (h : handler) :
  handleContent c (handleUsage usage h) = handleUsage usage (handleContent c h).
Proof.
  destruct h as [r i m ci hs tb it hc ti to]. unfold handleContent, handleUsage.
  cbn [inThinking thinkingBuffer set_tokens res messageId model
       contentIndex hasStarted hasContent totalInputTokens totalOutputTokens].
  destruct (includes think_open c); [reflexivity|].
  destruct it; [destruct (includes think_close c)|]; try reflexivity.
  - cbn zeta. unfold set_thinking at 2 5. cbn [thinkingBuffer].
    destruct (truthy (trim _)); destruct hc; reflexivity.
  - destruct (truthy c); destruct hc; reflexivity.
Qed.

Lemma handleUsage_run (usage : gmap string Z) (fragments : list string) (h : handler) :
  run (map HandleContent fragments) (handleUsage usage h)
  = handleUsage usage (run (map HandleContent fragments) h).
Proof.
  revert h. induction fragments as [|c l IH]; intros h; [reflexivity|].
  cbn [map]. rewrite !run_cons. cbn [step].
  now rewrite handleUsage_handleContent, IH.
Qed.

End UsageFacts.

(** ** Further theorems on the streaming handler *)

Section StreamExtras.
Import JsStringFacts MarkerFacts StreamFacts ReachedFacts UsageFacts Stream StreamObs.

(** X1: whatever is called on a new handler, and in whatever order, the
    log holds one content block at most: [content_block_start] is written
    once, with index 0 and an empty text, in front of the first delta, and
    only if a delta is written; every delta carries the index 0, and so does
    every [content_block_stop]. *)
Theorem single_block_at_index_zero (messageId model : string) (ops : list op) :
  let log := res (run ops (constructor [] messageId model)) in
  List.filter opens_or_appends (events log)
  = match deltas log with
    | [] => []
    | _ :: _ => ContentBlockStart 0 "" :: map (ContentBlockDelta 0) (deltas log)
    end
  /\ Forall stops_block_zero (events log).
Proof.
  cbn zeta.
  destruct (reached_run ops _ (reached_constructor messageId model))
    as [_ _ Ho Hk _ Hs].
  split; [|exact Hs]. rewrite Hk, Ho. now destruct (deltas _).
Qed.

(** X2: whatever is called on a new handler, no delta with an empty text is
    ever written. *)
Theorem deltas_never_empty (messageId model : string) (ops : list op) :
  Forall (fun t => t <> "") (deltas (res (run ops (constructor [] messageId model)))).
Proof.
  destruct (reached_run ops _ (reached_constructor messageId model))
    as [_ _ _ _ Hd _].
  eapply Forall_impl; [exact Hd|]. intros t. apply truthy_true.
Qed.

(** X3: in every state reached from a new handler the reasoning buffer is
    empty unless the handler is inside a reasoning segment, and [hasContent]
    is set exactly when a delta has been written. *)
Theorem handler_state_invariant (messageId model : string) (ops : list op) :
  let h := run ops (constructor [] messageId model) in
  (thinkingBuffer h = "" \/ inThinking h = true)
  /\ (hasContent h = true <-> deltas (res h) <> []).
Proof.
  cbn zeta.
  destruct (reached_run ops _ (reached_constructor messageId model))
    as [_ Hb Ho _ _ _].
  split; [exact Hb|]. rewrite Ho. destruct (deltas _); split; congruence.
Qed.

(** X5: [handleUsage] writes nothing, and a usage report may come at any
    point among the fragments: handling it before them leaves the handler in
    the state in which handling it after them does. *)
Theorem usage_report_commutes (usage : gmap string Z) (fragments : list string)
    (h : handler) :
  res (handleUsage usage h) = res h
  /\ run (HandleUsage usage :: map HandleContent fragments) h
     = run (map HandleContent fragments ++ [HandleUsage usage]) h.
Proof.
  split; [reflexivity|].
  rewrite run_cons, run_app. cbn [step run foldl]. apply handleUsage_run.
Qed.

(** X6: a reasoning segment that is never closed is not lost: when the
    fragments are visible ones [vs], then [<think>x0], then fragments [ms]
    without marker, [end()] writes the trimmed reasoning text gathered so far
    as the last delta, unless nothing but white space was gathered. *)
Theorem unterminated_reasoning_flushed (messageId model : string)
    (vs : list string) (x0 : string) (ms : list string) :
  Forall (fun y => includes think_open y = false) vs ->
  Forall marker_free ms ->
  deltas (res (stream messageId model (vs ++ (think_open +:+ x0) :: ms)))
  = List.filter truthy vs
    ++ (let r := trim (strip_final_newline x0 +:+ join ms) in
        if truthy r then [r] else []).
Proof.
  intros Hvs Hms. rewrite deltas_stream. cbn zeta.
  rewrite map_app, run_app.
  destruct (run_visible vs (start (constructor [] messageId model)) Hvs eq_refl)
    as [Hd Hi].
  set (h1 := run (map HandleContent vs) _) in *.
  cbn [map]. rewrite run_cons. cbn [step].
  rewrite (handleContent_open _ _ (includes_prefix _ _)), replace_first_prefix.
  rewrite (run_more _ _ Hms); [|reflexivity].
  unfold flush. cbn [res set_thinking inThinking thinkingBuffer andb].
  now rewrite Hd.
Qed.

Lemma unterminated_reasoning_flushed_witness :
  deltas (res (stream "msg_1" "m" (["Hi"; ""] ++ (think_open +:+ " plan") :: [" more "])))
  = ["Hi"; "plan more"].
Proof.
  apply (unterminated_reasoning_flushed "msg_1" "m" ["Hi"; ""] " plan" [" more "]).
  - repeat constructor.
  - repeat constructor.
Defined.

(** X7: a response without opening marker passes through: every non-empty
    fragment is written as one delta, verbatim and in order, closing markers
    included, so that the deltas spell the text that was fed. *)
Theorem visible_fragments_pass_through (messageId model : string)
    (fragments : list string) :
  Forall (fun y => includes think_open y = false) fragments ->
  deltas (res (stream messageId model fragments)) = List.filter truthy fragments
  /\ join (deltas (res (stream messageId model fragments))) = join fragments.
Proof.
  intros H.
  assert (E : deltas (res (stream messageId model fragments))
              = List.filter truthy fragments).
  { rewrite deltas_stream. cbn zeta.
    destruct (run_visible fragments (start (constructor [] messageId model)) H eq_refl)
      as [Hd Hi].
    unfold flush. rewrite Hi, Hd. simpl. now rewrite app_nil_r. }
  split; [exact E|]. rewrite E. apply join_filter_truthy.
Qed.

Lemma visible_fragments_pass_through_witness :
  deltas (res (stream "msg_1" "m" ["Hello"; ""; " </think> world"]))
  = List.filter truthy ["Hello"; ""; " </think> world"]
  /\ join (deltas (res (stream "msg_1" "m" ["Hello"; ""; " </think> world"])))
     = join ["Hello"; ""; " </think> world"].
Proof.
  apply (visible_fragments_pass_through "msg_1" "m" ["Hello"; ""; " </think> world"]).
  repeat constructor.
Defined.

End StreamExtras.

(** ** Further facts about the non-streaming conversion *)

Module RegexFacts.
Import JsStringFacts MarkerFacts NonStreamFacts NonStream.

Lemma lazy_until_close_unfold (s : string) :
  lazy_until_close s =
  if String.prefix think_close s
  then Some ("", drop (String.length think_close) s)
  else match s with
       | "" => None
       | String c s' =>
           match lazy_until_close s' with
           | Some (cap, rest) => Some (String c cap, rest)
           | None => None
           end
       end.
Proof. now destruct s. Qed.

Lemma think_regex_exec_unfold (s : string) :
  think_regex_exec s =
  match match_here s with
  | Some (cap, rest) => Some {| before := ""; capture := cap; after := rest |}
  | None =>
      match s with
      | "" => None
      | String c s' =>
          match think_regex_exec s' with
          | Some m => Some {| before := String c (before m);
                              capture := capture m; after := after m |}
          | None => None
          end
      end
  end.
Proof. now destruct s. Qed.

Lemma no_overlap_close_close_app (s : string) :
  no_overlap think_close (think_close +:+ s) = true.
Proof. reflexivity. Qed.

(** No marker [p] begins inside [x] when [x] holds none and none can
    straddle the seam with [m]. *)
Lemma prefix_app_none (p : string) (c : ascii) (x m : string) :
  index_of p (String c x) = None -> no_overlap p m = true ->
  String.prefix p (String c (x +:+ m)) = false.
Proof.
  intros H Hov. apply index_of_none_cons in H as [Hp _].
  destruct (String.prefix p (String c (x +:+ m))) eqn:E; [|reflexivity].
  change (String c (x +:+ m)) with (String c x +:+ m) in E.
  apply prefix_app_inv in E as [E | (v & Hv & Hne & Hm)]; [congruence|].
  rewrite (no_overlap_spec _ _ _ _ Hov Hv) in Hm; [discriminate | discriminate | exact Hne].
Qed.

Lemma lazy_until_close_app (X post : string) :
  index_of think_close X = None ->
  lazy_until_close (X +:+ think_close +:+ post) = Some (X, post).
Proof.
  induction X as [|c X IH]; intros H.
  - change ("" +:+ think_close +:+ post) with (think_close +:+ post).
    rewrite lazy_until_close_unfold, prefix_app. now rewrite drop_app.
  - change (String c X +:+ think_close +:+ post)
      with (String c (X +:+ think_close +:+ post)).
    rewrite lazy_until_close_unfold.
    rewrite (prefix_app_none _ _ _ _ H (no_overlap_close_close_app post)).
    apply index_of_none_cons in H as [_ H]. now rewrite (IH H).
Qed.

Lemma lazy_until_close_sound (s cap rest : string) :
  lazy_until_close s = Some (cap, rest) ->
  s = cap +:+ think_close +:+ rest /\ index_of think_close cap = None.
Proof.
  revert cap rest. induction s as [|c s IH]; intros cap rest.
  - discriminate.
  - rewrite lazy_until_close_unfold.
    destruct (String.prefix think_close (String c s)) eqn:E.
    + intros [= <- <-]. split; [|reflexivity]. exact (prefix_split _ _ E).
    + destruct (lazy_until_close s) as [[cap' rest']|]; [|discriminate].
      intros [= <- <-]. destruct (IH _ _ eq_refl) as [Hs Hc]. split.
      * change (String c cap' +:+ ?x) with (String c (cap' +:+ x)).
        f_equal. exact Hs.
      * cbn [index_of]. rewrite Hc.
        destruct (String.prefix think_close (String c cap')) eqn:E'; [|reflexivity].
        apply (prefix_app_l _ _ (think_close +:+ rest')) in E'.
        change (String c cap' +:+ think_close +:+ rest')
          with (String c (cap' +:+ think_close +:+ rest')) in E'.
        rewrite <- Hs in E'. congruence.
Qed.

Lemma lazy_until_close_some (s : string) :
  lazy_until_close s = None -> index_of think_close s = None.
Proof.
  induction s as [|c s IH]; [reflexivity|].
  rewrite lazy_until_close_unfold. cbn [index_of].
  destruct (String.prefix think_close (String c s)); [discriminate|].
  destruct (lazy_until_close s) as [[? ?]|]; [discriminate|].
  intros _. now rewrite IH.
Qed.

(** The match found when the first opening marker is followed by a closing
    one. *)
Lemma think_regex_exec_app (pre X post : string) :
  index_of think_open pre = None ->
  index_of think_close X = None ->
  think_regex_exec (pre +:+ think_open +:+ X +:+ think_close +:+ post)
  = Some {| before := pre; capture := X; after := post |}.
Proof.
  intros Hpre HX. induction pre as [|c pre IH].
  - change ("" +:+ ?s) with s. rewrite think_regex_exec_unfold.
    unfold match_here. rewrite prefix_app, drop_app.
    now rewrite (lazy_until_close_app _ _ HX).
  - change (String c pre +:+ ?s) with (String c (pre +:+ s)).
    rewrite think_regex_exec_unfold. unfold match_here.
    rewrite (prefix_app_none _ _ _ _ Hpre
               (no_overlap_open_open (X +:+ think_close +:+ post))).
    apply index_of_none_cons in Hpre as [_ Hpre]. now rewrite (IH Hpre).
Qed.

Lemma think_regex_exec_sound (s : string) (m : think_match) :
  think_regex_exec s = Some m ->
  s = before m +:+ think_open +:+ capture m +:+ think_close +:+ after m
  /\ index_of think_close (capture m) = None.
Proof.
  revert m. induction s as [|c s IH]; intros m.
  - discriminate.
  - rewrite think_regex_exec_unfold. unfold match_here.
    destruct (String.prefix think_open (String c s)) eqn:E.
    + destruct (lazy_until_close _) as [[cap rest]|] eqn:El.
      * intros [= <-]. cbn [before capture after].
        apply lazy_until_close_sound in El as [Hs Hc]. split; [|exact Hc].
        rewrite (prefix_split _ _ E). change ("" +:+ ?x) with x.
        now rewrite Hs.
      * destruct (think_regex_exec s) as [m'|]; [|discriminate].
        intros [= <-]. cbn [before capture after].
        destruct (IH _ eq_refl) as [Hs Hc]. split; [|exact Hc].
        change (String c (before m') +:+ ?x) with (String c (before m' +:+ x)).
        f_equal. exact Hs.
    + destruct (think_regex_exec s) as [m'|]; [|discriminate].
      intros [= <-]. cbn [before capture after].
      destruct (IH _ eq_refl) as [Hs Hc]. split; [|exact Hc].
      change (String c (before m') +:+ ?x) with (String c (before m' +:+ x)).
      f_equal. exact Hs.
Qed.

Lemma think_regex_exec_complete (pre X post : string) :
  think_regex_exec (pre +:+ think_open +:+ X +:+ think_close +:+ post) <> None.
Proof.
  induction pre as [|c pre IH].
  - change ("" +:+ ?s) with s. rewrite think_regex_exec_unfold.
    unfold match_here. rewrite prefix_app, drop_app.
    destruct (lazy_until_close _) as [[? ?]|] eqn:E; [discriminate|].
    apply lazy_until_close_some in E.
    pose proof (includes_close_mid X post) as Hc.
    unfold includes in Hc. now rewrite E in Hc.
  - change (String c pre +:+ ?s) with (String c (pre +:+ s)).
    rewrite think_regex_exec_unfold.
    destruct (match_here _) as [[? ?]|]; [discriminate|].
    destruct (think_regex_exec _); [discriminate | contradiction].
Qed.

(** *** [trim] twice *)

Lemma trim_start_fixed (s : string) :
  (forall c, first_char s = Some c -> is_space c = false) -> trim_start s = s.
Proof.
  destruct s as [|c s]; [reflexivity|]. intros H. simpl.
  now rewrite (H c eq_refl).
Qed.

Lemma trim_end_idemp (s : string) : trim_end (trim_end s) = trim_end s.
Proof.
  induction s as [|c s IH]; [reflexivity|]. cbn [trim_end].
  destruct (trim_end s) as [|d t] eqn:E.
  - destruct (is_space c) eqn:Ec; [reflexivity|]. simpl. now rewrite Ec.
  - cbn [trim_end]. cbn [trim_end] in IH. now rewrite IH.
Qed.

Lemma trim_idemp (s : string) : trim (trim s) = trim s.
Proof.
  unfold trim at 1. rewrite trim_start_fixed; [apply trim_end_idemp|].
  intros c Hc. apply (trim_ends s). now left.
Qed.

(** The blocks for a content whose first opening marker is closed. *)
Lemma nonstream_blocks_of_segment (pre X post : string) :
  includes think_open pre = false ->
  includes think_close X = false ->
  content_blocks (pre +:+ think_open +:+ X +:+ think_close +:+ post)
  = let thinking := trim X in
    let main := trim (pre +:+ trim_start post) in
    match (if truthy thinking then [text_block thinking] else [])
          ++ (if truthy main then [text_block main] else []) with
    | [] => [text_block ""]
    | b :: l => b :: l
    end.
Proof.
  intros Hpre%includes_false HX%includes_false.
  unfold content_blocks, think_regex_remove.
  rewrite (think_regex_exec_app _ _ _ Hpre HX). cbn [before capture after].
  cbn zeta. destruct (truthy (trim X)); destruct (truthy (trim _)); reflexivity.
Qed.

End RegexFacts.

(** ** Further theorems on the non-streaming conversion *)

Section NonStreamExtras.
Import JsStringFacts MarkerFacts NonStreamFacts RegexFacts NonStream.

(** X8: the regular expression of the conversion finds a reasoning segment
    exactly when the content holds an opening marker with a closing marker
    somewhere behind it.  The match then cuts the content into the text in
    front, the captured text and the text behind, and the captured text holds
    no closing marker: the segment ends at the first one. *)
Theorem think_regex_exec_spec (s : string) :
  match think_regex_exec s with
  | Some m =>
      s = before m +:+ think_open +:+ capture m +:+ think_close +:+ after m
      /\ includes think_close (capture m) = false
  | None =>
      forall pre X post, s <> pre +:+ think_open +:+ X +:+ think_close +:+ post
  end.
Proof.
  destruct (think_regex_exec s) as [m|] eqn:E.
  - destruct (think_regex_exec_sound _ _ E) as [Hs Hc].
    split; [exact Hs | now apply includes_false].
  - intros pre X post ->. now apply (think_regex_exec_complete pre X post).
Qed.

(** X9: for a content whose first opening marker is followed by a closing
    one, [pre<think>X</think>post], the blocks are the trimmed reasoning text
    [X], if it is not blank, and then the trimmed rest, which is [pre] joined
    to [post] without the white space that begins [post], if it is not
    empty; a single empty block if both are dropped.  Later markers stay in
    the rest as text. *)
Theorem nonstream_segment_blocks (messageId model : string)
    (usage : option (gmap string Z)) (pre X post : string) :
  includes think_open pre = false ->
  includes think_close X = false ->
  content (antigravityToClaudeResponse messageId
             (pre +:+ think_open +:+ X +:+ think_close +:+ post) model usage)
  = let thinking := trim X in
    let main := trim (pre +:+ trim_start post) in
    match (if truthy thinking then [text_block thinking] else [])
          ++ (if truthy main then [text_block main] else []) with
    | [] => [text_block ""]
    | b :: l => b :: l
    end.
Proof.
  intros Hpre%includes_false HX%includes_false.
  unfold antigravityToClaudeResponse. cbn [content].
  unfold content_blocks, think_regex_remove.
  rewrite (think_regex_exec_app _ _ _ Hpre HX). cbn [before capture after].
  cbn zeta. destruct (truthy (trim X)); destruct (truthy (trim _)); reflexivity.
Qed.

Lemma nonstream_segment_blocks_witness :
  content (antigravityToClaudeResponse "msg_1"
             ("Sure. " +:+ think_open +:+ " plan " +:+ think_close
              +:+ "  Done <think>x</think>") "m" None)
  = [text_block "plan"; text_block "Sure. Done <think>x</think>"].
Proof.
  apply (nonstream_segment_blocks "msg_1" "m" None "Sure. " " plan "
           "  Done <think>x</think>"); reflexivity.
Defined.

(** X10: the content array of a response is never empty and never holds
    more than two blocks; every block is of type [text]; and an empty text
    appears only as the single block of a response without any text. *)
Theorem content_well_formed (s : string) :
  let blocks := content_blocks s in
  (length blocks = 1 \/ length blocks = 2)
  /\ Forall (fun b => type b = "text") blocks
  /\ (Forall (fun b => text b <> "") blocks \/ blocks = [text_block ""]).
Proof.
  cbn zeta. unfold content_blocks.
  destruct (think_regex_exec s) as [m|].
  - destruct (truthy (trim (capture m))) eqn:E1;
      destruct (truthy (trim (think_regex_remove s))) eqn:E2; simpl;
      rewrite ?truthy_true in *;
      (split; [auto|]); (split; [repeat constructor|]);
      try (left; repeat constructor; assumption); now right.
  - destruct (truthy s) eqn:E; simpl; rewrite ?truthy_true in *;
      (split; [auto|]); (split; [repeat constructor|]);
      try (left; repeat constructor; assumption); now right.
Qed.

(** X11: when a reasoning segment is found, no block begins or ends with
    white space: trimming a block again changes nothing.  (Without a segment
    the content is kept as it is, white space included.) *)
Theorem matched_blocks_are_trimmed (s : string) :
  think_regex_exec s <> None ->
  Forall (fun b => trim (text b) = text b) (content_blocks s).
Proof.
  intros H. unfold content_blocks.
  destruct (think_regex_exec s) as [m|]; [|contradiction].
  destruct (truthy (trim (capture m))); destruct (truthy (trim (think_regex_remove s)));
    simpl; repeat constructor; simpl; try apply trim_idemp; reflexivity.
Qed.

Lemma matched_blocks_are_trimmed_witness :
  Forall (fun b => trim (text b) = text b)
         (content_blocks " a <think> b </think> c ").
Proof.
  apply (matched_blocks_are_trimmed " a <think> b </think> c "). discriminate.
Defined.

End NonStreamExtras.

(** ** Facts about the serialisation *)

Module SseFacts.
Import JsStringFacts Stream Sse Client.

Lemma no_lf_app (a b : string) : no_lf (a +:+ b) = no_lf a && no_lf b.
Proof.
  induction a as [|c a IH]; [reflexivity|].
  simpl. rewrite IH. now rewrite andb_assoc.
Qed.

Lemma no_lf_escape_char (c : ascii) : no_lf (escape_char c) = true.
Proof. destruct c as [[] [] [] [] [] [] [] []]; reflexivity. Qed.

Lemma no_lf_escape (s : string) : no_lf (escape s) = true.
Proof.
  induction s as [|c s IH]; [reflexivity|].
  cbn [escape]. now rewrite no_lf_app, no_lf_escape_char, IH.
Qed.

Lemma no_lf_quote (s : string) : no_lf (quote s) = true.
Proof.
  unfold quote. change (String double_quote ?x) with (String double_quote "" +:+ x).
  now rewrite !no_lf_app, no_lf_escape.
Qed.

Lemma no_lf_uint (d : Decimal.uint) :
  no_lf (DecimalString.NilEmpty.string_of_uint d) = true.
Proof. induction d; simpl; auto. Qed.

Lemma no_lf_number (n : Z) : no_lf (number_to_string n) = true.
Proof.
  unfold number_to_string, DecimalString.NilZero.string_of_int,
    DecimalString.NilZero.string_of_uint.
  destruct (Z.to_int n) as [d|d]; destruct d; try reflexivity;
    try (apply (no_lf_uint (_ d))); simpl; apply (no_lf_uint d).
Qed.

Lemma no_lf_commas (l : list string) :
  Forall (fun s => no_lf s = true) l -> no_lf (commas l) = true.
Proof.
  induction 1 as [|x l Hx Hl IH]; [reflexivity|].
  destruct l as [|y l]; [exact Hx|].
  change (commas (x :: y :: l)) with (x +:+ "," +:+ commas (y :: l)).
  now rewrite !no_lf_app, Hx, IH.
Qed.

(** The text of [JSON.stringify] holds no line feed. *)
Lemma no_lf_stringify (j : json) : no_lf (stringify j) = true.
Proof.
  induction j as [| n | s | items IH | properties IH] using json_induction.
  - reflexivity.
  - apply no_lf_number.
  - apply no_lf_quote.
  - cbn [stringify]. rewrite !no_lf_app, no_lf_commas; [reflexivity|].
    apply Forall_map. exact IH.
  - cbn [stringify]. rewrite !no_lf_app, no_lf_commas; [reflexivity|].
    apply Forall_map. eapply Forall_impl; [exact IH|].
    intros [k v] Hv. cbn [fst snd] in *. now rewrite !no_lf_app, no_lf_quote, Hv.
Qed.

Lemma no_lf_event_type (e : event) : no_lf (event_type e) = true.
Proof. now destruct e. Qed.

End SseFacts.

(** ** Facts about the reading loop *)

Module ClientFacts.
Import JsStringFacts Stream Sse SseFacts Client.

Lemma split_blank_two (cur : string) (c d : ascii) (s : string) :
  split_blank cur (String c (String d s)) =
  if Ascii.eqb c LF && Ascii.eqb d LF
  then cur :: split_blank "" s
  else split_blank (cur +:+ String c "") (String d s).
Proof. reflexivity. Qed.

Lemma split_blank_not_nil (cur s : string) : split_blank cur s <> [].
Proof.
  remember (String.length s) as n eqn:Hn. revert cur s Hn.
  induction n as [n IH] using lt_wf_ind. intros cur s Hn.
  destruct s as [|c [|d s]]; try discriminate.
  rewrite split_blank_two. destruct (_ && _); [discriminate|].
  apply (IH (String.length (String d s))); [subst n; simpl; lia | reflexivity].
Qed.

Lemma removelast_cons {A : Type} (x : A) (l : list A) :
  l <> [] -> removelast (x :: l) = x :: removelast l.
Proof. now destruct l. Qed.

Lemma last_cons {A : Type} (x : A) (l : list A) (d : A) :
  l <> [] -> List.last (x :: l) d = List.last l d.
Proof. now destruct l. Qed.

Lemma last_app_ne {A : Type} (l1 l2 : list A) (d : A) :
  l2 <> [] -> List.last (l1 ++ l2) d = List.last l2 d.
Proof.
  intros H. induction l1 as [|x l1 IH]; [reflexivity|].
  cbn [app]. rewrite last_cons; [exact IH|]. now destruct l1, l2.
Qed.

Lemma ends_lf_snoc (acc : string) (a : ascii) :
  ends_lf (acc +:+ String a "") = Ascii.eqb a LF.
Proof.
  induction acc as [|c acc IH]; [reflexivity|].
  change (String c acc +:+ ?x) with (String c (acc +:+ x)).
  cbn [ends_lf]. rewrite IH. now destruct acc.
Qed.

Lemma ends_lf_cons (c d : ascii) (s : string) :
  ends_lf (String c (String d s)) = ends_lf (String d s).
Proof. reflexivity. Qed.

Lemma blank_free_cons (c d : ascii) (s : string) :
  blank_free (String c (String d s))
  = negb (Ascii.eqb c LF && Ascii.eqb d LF) && blank_free (String d s).
Proof. reflexivity. Qed.

Lemma blank_free_snoc (acc : string) (a : ascii) :
  blank_free acc = true -> ends_lf acc && Ascii.eqb a LF = false ->
  blank_free (acc +:+ String a "") = true.
Proof.
  induction acc as [|c acc IH]; [reflexivity|].
  destruct acc as [|d acc].
  - intros _ H. simpl in *. now rewrite H.
  - rewrite blank_free_cons, ends_lf_cons. intros [H1 H2]%andb_prop H.
    change (String c (String d acc) +:+ ?x) with (String c (String d acc +:+ x)).
    change (String d acc +:+ ?x) with (String d (acc +:+ x)) at 1.
    rewrite blank_free_cons, H1. apply (IH H2 H).
Qed.

(** A piece read so far may be read again: the split does not change. *)
Lemma split_blank_rescan (cur acc s : string) :
  blank_free cur = true -> ends_lf cur && starts_lf s = false ->
  split_blank acc (cur +:+ s) = split_blank (acc +:+ cur) s.
Proof.
  revert acc. induction cur as [|a cur IH]; intros acc Hb He.
  - now rewrite append_nil_r.
  - destruct cur as [|d cur].
    + change (String a "" +:+ s) with (String a s). destruct s as [|d s]; [reflexivity|].
      rewrite split_blank_two. simpl in He. now rewrite He.
    + rewrite blank_free_cons in Hb. apply andb_prop in Hb as [H1 H2].
      rewrite ends_lf_cons in He.
      change (String a (String d cur) +:+ s) with (String a (String d (cur +:+ s))).
      rewrite split_blank_two. apply negb_true_iff in H1. rewrite H1.
      change (String d (cur +:+ s)) with (String d cur +:+ s).
      rewrite (IH _ H2 He). now rewrite append_assoc.
Qed.

(** Reading a text and then more of it: the pieces that were complete stay,
    and the last one is read again with what comes. *)
Lemma split_blank_more (c : string) (n : nat) :
  forall acc w, String.length w <= n ->
    blank_free acc = true -> ends_lf acc && starts_lf (w +:+ c) = false ->
    split_blank acc (w +:+ c)
    = removelast (split_blank acc w)
      ++ split_blank "" (List.last (split_blank acc w) "" +:+ c).
Proof.
  induction n as [|n IH]; intros acc w Hn Hb He.
  - destruct w; [|simpl in Hn; lia]. cbn [split_blank removelast List.last app].
    change ("" +:+ c) with c in *. now rewrite (split_blank_rescan acc "" c).
  - destruct w as [|a [|d w]].
    + cbn [split_blank removelast List.last app].
      change ("" +:+ c) with c in *. now rewrite (split_blank_rescan acc "" c).
    + cbn [split_blank removelast List.last app].
      change (String a "" +:+ c) with (String a c) in *.
      destruct c as [|d c].
      * rewrite (split_blank_rescan (acc +:+ String a "") "" "");
          [reflexivity | | apply andb_false_r].
        apply blank_free_snoc; [exact Hb | exact He].
      * rewrite split_blank_two. cbn [starts_lf] in He.
        destruct (Ascii.eqb a LF) eqn:Ea; destruct (Ascii.eqb d LF) eqn:Ed; cbn [andb].
        -- rewrite andb_true_r in He.
           rewrite append_assoc.
           change (String a "" +:+ String d c) with (String a (String d c)).
           rewrite (split_blank_rescan acc "" (String a (String d c)) Hb);
             [| simpl; now rewrite He].
           rewrite split_blank_two, Ea, Ed. reflexivity.
        -- rewrite (split_blank_rescan (acc +:+ String a "") "" (String d c));
             [reflexivity | | rewrite ends_lf_snoc; cbn [starts_lf]; now rewrite Ea, Ed].
           apply blank_free_snoc; [exact Hb|].
           rewrite Ea; first [exact He | apply andb_false_r].
        -- rewrite (split_blank_rescan (acc +:+ String a "") "" (String d c));
             [reflexivity | | rewrite ends_lf_snoc; cbn [starts_lf]; now rewrite Ea, Ed].
           apply blank_free_snoc; [exact Hb|].
           rewrite Ea; first [exact He | apply andb_false_r].
        -- rewrite (split_blank_rescan (acc +:+ String a "") "" (String d c));
             [reflexivity | | rewrite ends_lf_snoc; cbn [starts_lf]; now rewrite Ea, Ed].
           apply blank_free_snoc; [exact Hb|].
           rewrite Ea; first [exact He | apply andb_false_r].
    + change (String a (String d w) +:+ c) with (String a (String d (w +:+ c))) in *.
      rewrite !split_blank_two. cbn [starts_lf] in He.
      destruct (Ascii.eqb a LF && Ascii.eqb d LF) eqn:E.
      * rewrite removelast_cons, last_cons by apply split_blank_not_nil.
        cbn [app]. f_equal. apply IH; [simpl in Hn; lia | reflexivity | reflexivity].
      * change (String d (w +:+ c)) with (String d w +:+ c).
        apply IH; [simpl in *; lia | now apply blank_free_snoc |].
        rewrite ends_lf_snoc. cbn [String.append starts_lf].
        destruct (Ascii.eqb a LF); [|reflexivity]. exact E.
Qed.

Lemma split_blank_app (w c : string) :
  split_blank "" (w +:+ c)
  = removelast (split_blank "" w)
    ++ split_blank "" (List.last (split_blank "" w) "" +:+ c).
Proof. now apply (split_blank_more c (String.length w)). Qed.

Lemma read_chunk_after (w c : string) : read_chunk (after w) c = after (w +:+ c).
Proof.
  unfold read_chunk, after. cbn [buffer printed eventCount].
  rewrite (split_blank_app w c).
  rewrite removelast_app, last_app_ne by apply split_blank_not_nil.
  rewrite List.filter_app, length_app. reflexivity.
Qed.

(** The loop does not depend on how the text is cut into chunks. *)
Lemma read_all_after (chunks : list string) : read_all chunks = after (join chunks).
Proof.
  unfold read_all. change {| buffer := ""; printed := []; eventCount := 0 |} with (after "").
  change (join chunks) with ("" +:+ join chunks). generalize "" as w.
  induction chunks as [|c l IH]; intros w.
  - cbn [foldl join]. now rewrite append_nil_r.
  - cbn [foldl join]. rewrite read_chunk_after, IH. now rewrite append_assoc.
Qed.

End ClientFacts.

(** ** Theorems on the serialisation and on the client *)

Module FrameFacts.
Import JsStringFacts Stream Sse SseFacts Client ClientFacts.

Lemma no_lf_blank_free (s : string) : no_lf s = true -> blank_free s = true.
Proof.
  induction s as [|c s IH]; [reflexivity|]. destruct s as [|d s]; [reflexivity|].
  intros [Hc Hs]%andb_prop. rewrite blank_free_cons, (IH Hs).
  apply negb_true_iff in Hc. now rewrite Hc.
Qed.

Lemma no_lf_ends_lf (s : string) : no_lf s = true -> ends_lf s = false.
Proof.
  induction s as [|c s IH]; [reflexivity|]. intros [Hc Hs]%andb_prop.
  destruct s as [|d s]; [now apply negb_true_iff in Hc|].
  rewrite ends_lf_cons. now apply IH.
Qed.

Lemma no_lf_starts_lf (s : string) : no_lf s = true -> starts_lf s = false.
Proof. destruct s; [reflexivity|]. intros [Hc _]%andb_prop. now apply negb_true_iff. Qed.

(** Two lines without line feed inside, the second one not empty. *)
Lemma two_lines (a b : string) :
  no_lf a = true -> no_lf b = true -> b <> "" ->
  blank_free (a +:+ String LF b) = true /\ ends_lf (a +:+ String LF b) = false.
Proof.
  intros Ha Hb Hne. split.
  - induction a as [|c a IH].
    + destruct b as [|d b]; [congruence|].
      change ("" +:+ ?x) with x. rewrite blank_free_cons, (no_lf_blank_free _ Hb).
      apply andb_prop in Hb as [Hd _]. apply negb_true_iff in Hd. now rewrite Hd.
    + apply andb_prop in Ha as [Hc Ha]. specialize (IH Ha).
      change (String c a +:+ ?x) with (String c (a +:+ x)).
      destruct (a +:+ String LF b) as [|d t] eqn:E; [reflexivity|].
      rewrite blank_free_cons, IH. apply negb_true_iff in Hc. now rewrite Hc.
  - induction a as [|c a IH].
    + destruct b as [|d b]; [congruence|].
      change ("" +:+ ?x) with x. rewrite ends_lf_cons. now apply no_lf_ends_lf.
    + apply andb_prop in Ha as [Hc Ha]. specialize (IH Ha).
      change (String c a +:+ ?x) with (String c (a +:+ x)).
      destruct (a +:+ String LF b) as [|d t] eqn:E; [now destruct a|].
      now rewrite ends_lf_cons.
Qed.

Lemma event_lines_shape (eventType : string) (data : json) :
  no_lf eventType = true ->
  blank_free (event_lines eventType data) = true
  /\ ends_lf (event_lines eventType data) = false
  /\ truthy (trim (event_lines eventType data)) = true.
Proof.
  intros H. unfold event_lines.
  destruct (two_lines ("event: " +:+ eventType) ("data: " +:+ stringify data))
    as [Hb He].
  - now rewrite no_lf_app, H.
  - now rewrite no_lf_app, no_lf_stringify.
  - discriminate.
  - rewrite <- append_assoc. repeat split; [exact Hb | exact He |].
    unfold trim. cbn [String.append trim_start is_space].
    simpl. now destruct (trim_end _).
Qed.

(** The first blank line of a text that begins with complete lines [b] is
    the one that ends them. *)
Lemma split_blank_frame (b rest : string) :
  blank_free b = true -> ends_lf b = false ->
  split_blank "" (b +:+ blank_line +:+ rest) = b :: split_blank "" rest.
Proof.
  intros Hb He. rewrite (split_blank_rescan b "" _ Hb); [|now rewrite He].
  reflexivity.
Qed.

Lemma split_blank_frames (bs : list string) :
  Forall (fun b => blank_free b = true /\ ends_lf b = false) bs ->
  split_blank "" (join (map (fun b => b +:+ blank_line) bs)) = bs ++ [""].
Proof.
  induction 1 as [|b bs [Hb He] _ IH]; [reflexivity|].
  cbn [map join]. rewrite append_assoc, (split_blank_frame _ _ Hb He), IH.
  reflexivity.
Qed.

Lemma wire_events (log : list sink_call) :
  wire log
  = join (map (fun b => b +:+ blank_line)
              (map (fun e => event_lines (event_type e) (data_of e)) (events log))).
Proof.
  unfold wire. induction log as [|[e|] log IH]; [reflexivity| |exact IH].
  cbn [map join sent events omap list_omap]. unfold events in IH.
  now rewrite IH.
Qed.

End FrameFacts.

Section FrameTheorems.
Import JsStringFacts Stream Sse SseFacts Client ClientFacts FrameFacts.

(** X12: an event built by [createClaudeStreamEvent] cannot be cut short
    by its data.  [JSON.stringify] leaves no line feed in the data, so for an
    event name without line feed the first blank line of any text that
    begins with the event is the one that ends it: splitting at the blank
    lines gives the two lines of the event and then the pieces of the rest. *)
Theorem event_frame_is_self_delimiting (eventType : string) (data : json)
    (rest : string) :
  no_lf eventType = true ->
  no_lf (stringify data) = true
  /\ split_blank "" (createClaudeStreamEvent eventType data +:+ rest)
     = event_lines eventType data :: split_blank "" rest.
Proof.
  intros H. split; [apply no_lf_stringify|].
  destruct (event_lines_shape eventType data H) as (Hb & He & _).
  unfold createClaudeStreamEvent. rewrite append_assoc.
  now apply split_blank_frame.
Qed.

Lemma event_frame_is_self_delimiting_witness :
  no_lf (stringify (JObject [("text", JString (blank_line +:+ "x" +:+ blank_line))])) = true
  /\ split_blank ""
       (createClaudeStreamEvent "content_block_delta"
          (JObject [("text", JString (blank_line +:+ "x" +:+ blank_line))])
        +:+ "event: message_stop")
     = event_lines "content_block_delta"
         (JObject [("text", JString (blank_line +:+ "x" +:+ blank_line))])
       :: split_blank "" "event: message_stop".
Proof.
  apply (event_frame_is_self_delimiting "content_block_delta"
           (JObject [("text", JString (blank_line +:+ "x" +:+ blank_line))])
           "event: message_stop").
  reflexivity.
Defined.

(** X13: the reading loop of the test script gets every event that the
    handler writes, whatever the handler was fed and however the text that
    was sent is cut into chunks: it prints the two lines of each event, in
    order, counts as many events as were written, and ends with an empty
    buffer. *)
Theorem client_reads_every_event (log : list sink_call) (chunks : list string) :
  join chunks = wire log ->
  printed (read_all chunks)
  = map (fun e => event_lines (event_type e) (data_of e)) (events log)
  /\ eventCount (read_all chunks) = length (events log)
  /\ buffer (read_all chunks) = "".
Proof.
  intros H. rewrite read_all_after, H, wire_events. unfold after.
  set (bs := map (fun e => event_lines (event_type e) (data_of e)) (events log)).
  assert (Hall : Forall (fun b => blank_free b = true /\ ends_lf b = false
                                  /\ truthy (trim b) = true) bs).
  { subst bs. apply Forall_map, Forall_forall. intros e _.
    apply event_lines_shape, no_lf_event_type. }
  rewrite split_blank_frames by (eapply Forall_impl; [exact Hall | intros b (? & ? & _); now split]).
  cbn [buffer printed eventCount].
  rewrite removelast_last, last_last.
  assert (Hf : List.filter (fun line => truthy (trim line)) bs = bs).
  { clear -Hall. induction Hall as [|b bs (_ & _ & Hb) _ IH]; [reflexivity|].
    cbn [List.filter]. now rewrite Hb, IH. }
  rewrite Hf. repeat split. subst bs. now rewrite length_map.
Qed.

Lemma client_reads_every_event_witness :
  printed (read_all ["event: message_st"; "op" +:+ String LF "da";
                     "ta: {" +:+ quote "type" +:+ ":" +:+ quote "message_stop" +:+ "}" +:+ String LF "";
                     String LF ""])
  = map (fun e => event_lines (event_type e) (data_of e)) (events [Write MessageStop; End])
  /\ eventCount (read_all ["event: message_st"; "op" +:+ String LF "da";
                     "ta: {" +:+ quote "type" +:+ ":" +:+ quote "message_stop" +:+ "}" +:+ String LF "";
                     String LF ""])
     = length (events [Write MessageStop; End])
  /\ buffer (read_all ["event: message_st"; "op" +:+ String LF "da";
                     "ta: {" +:+ quote "type" +:+ ":" +:+ quote "message_stop" +:+ "}" +:+ String LF "";
                     String LF ""]) = "".
Proof.
  apply (client_reads_every_event [Write MessageStop; End]). reflexivity.
Defined.

End FrameTheorems.

(** ** Theorems on [fetchWithRetry] *)

Module RetryFacts.
Import Client.

Lemma retry_loop_success {R E : Type} (fetch : nat -> attempt R E) (retries : Z)
    (k : nat) (r : R) (d : nat) :
  forall i fuel,
    i + d = k -> d < fuel -> (Z.of_nat k <= retries)%Z ->
    fetch k = Fulfilled r ->
    (forall j, i <= j < k -> exists e, fetch j = Rejected e) ->
    retry_loop fetch retries fuel i
    = (Returned (Some r), flat_map failed_turn (seq i d) ++ [DoFetch k]).
Proof.
  induction d as [|d IH]; intros i fuel Hk Hf Hr Hok Hfail.
  - destruct fuel as [|fuel]; [lia|]. replace i with k by lia. cbn [retry_loop].
    destruct (Z.leb_spec (Z.of_nat k) retries); [|lia]. now rewrite Hok.
  - destruct fuel as [|fuel]; [lia|]. cbn [retry_loop].
    destruct (Z.leb_spec (Z.of_nat i) retries); [|lia].
    destruct (Hfail i) as [e He]; [lia|]. rewrite He.
    destruct (Z.ltb_spec (Z.of_nat i) retries); [|lia].
    rewrite (IH (S i) fuel); [reflexivity | lia | lia | exact Hr | exact Hok |].
    intros j Hj. apply Hfail. lia.
Qed.

Lemma retry_loop_failure {R E : Type} (fetch : nat -> attempt R E) (retries : Z)
    (err : nat -> E) (d : nat) :
  forall i fuel,
    (Z.of_nat (i + d) = retries)%Z -> d < fuel ->
    (forall j, i <= j <= i + d -> fetch j = Rejected (err j)) ->
    retry_loop fetch retries fuel i
    = (Thrown (err (i + d)), flat_map failed_turn (seq i d) ++ [DoFetch (i + d)]).
Proof.
  induction d as [|d IH]; intros i fuel Hr Hf Hfail.
  - destruct fuel as [|fuel]; [lia|]. cbn [retry_loop]. rewrite Nat.add_0_r in *.
    destruct (Z.leb_spec (Z.of_nat i) retries); [|lia].
    rewrite (Hfail i) by lia.
    destruct (Z.ltb_spec (Z.of_nat i) retries); [lia|]. reflexivity.
  - destruct fuel as [|fuel]; [lia|]. cbn [retry_loop].
    destruct (Z.leb_spec (Z.of_nat i) retries); [|lia].
    rewrite (Hfail i) by lia.
    destruct (Z.ltb_spec (Z.of_nat i) retries); [|lia].
    rewrite (IH (S i) fuel); [| lia | lia | intros j Hj; apply Hfail; lia].
    replace (S i + d) with (i + S d) by lia. reflexivity.
Qed.

End RetryFacts.

Section RetryTheorems.
Import Client RetryFacts.
Context {R E : Type}.

(** X14: [fetchWithRetry] returns the response of the first call of
    [fetch] that is fulfilled, provided it is one of the first [retries + 1]
    calls: the calls before it were rejected, each followed by a message and
    a wait of [RETRY_DELAY] milliseconds, and [fetch] is not called again
    after the response. *)
Theorem fetchWithRetry_first_response (fetch : nat -> attempt R E) (retries : Z)
    (k : nat) (r : R) :
  (Z.of_nat k <= retries)%Z ->
  fetch k = Fulfilled r ->
  (forall j, j < k -> exists e, fetch j = Rejected e) ->
  fetchWithRetry fetch retries
  = (Returned (Some r), flat_map failed_turn (seq 0 k) ++ [DoFetch k]).
Proof.
  intros Hr Hok Hfail. unfold fetchWithRetry.
  apply (retry_loop_success fetch retries k r k 0); [lia | lia | exact Hr | exact Hok |].
  intros j Hj. apply Hfail. lia.
Qed.

(** X15: when the first [retries + 1] calls of [fetch] are all rejected,
    [fetchWithRetry] throws the error of the last of them, after [retries]
    waits, and has called [fetch] [retries + 1] times, not more.  With a
    negative [retries] it calls nothing and returns [undefined]. *)
Theorem fetchWithRetry_gives_up (fetch : nat -> attempt R E) (retries : Z)
    (err : nat -> E) :
  ((retries < 0)%Z -> fetchWithRetry fetch retries = (Returned None, []))
  /\ ((0 <= retries)%Z ->
      (forall j, (Z.of_nat j <= retries)%Z -> fetch j = Rejected (err j)) ->
      fetchWithRetry fetch retries
      = (Thrown (err (Z.to_nat retries)),
         flat_map failed_turn (seq 0 (Z.to_nat retries))
         ++ [DoFetch (Z.to_nat retries)])).
Proof.
  split.
  - intros H. unfold fetchWithRetry.
    replace (Z.to_nat (retries + 1)) with 0 by lia. reflexivity.
  - intros Hr Hfail. unfold fetchWithRetry.
    apply (retry_loop_failure fetch retries err (Z.to_nat retries) 0); [lia | lia |].
    intros j Hj. apply Hfail. lia.
Qed.

End RetryTheorems.

Lemma fetchWithRetry_first_response_witness :
  Client.fetchWithRetry
    (fun i => if Nat.eqb i 1 then Client.Fulfilled "ok" else Client.Rejected "down") 1
  = (Client.Returned (Some "ok"),
     flat_map Client.failed_turn (seq 0 1) ++ [Client.DoFetch 1]).
Proof.
  apply (fetchWithRetry_first_response
           (fun i => if Nat.eqb i 1 then Client.Fulfilled "ok" else Client.Rejected "down")
           1 1 "ok").
  - lia.
  - reflexivity.
  - intros j Hj. exists "down". now replace j with 0 by lia.
Defined.

Lemma fetchWithRetry_gives_up_witness :
  Client.fetchWithRetry (R := string) (fun i => Client.Rejected i) (-1)
  = (Client.Returned None, [])
  /\ Client.fetchWithRetry (R := string) (fun i => Client.Rejected i) 1
     = (Client.Thrown (Z.to_nat 1),
        flat_map Client.failed_turn (seq 0 (Z.to_nat 1)) ++ [Client.DoFetch (Z.to_nat 1)]).
Proof.
  split.
  - apply (proj1 (fetchWithRetry_gives_up (R := string)
                    (fun i => Client.Rejected i) (-1) (fun i => i))). lia.
  - apply (proj2 (fetchWithRetry_gives_up (R := string)
                    (fun i => Client.Rejected i) 1 (fun i => i))); [lia | reflexivity].
Defined.

(** ** The two conversions side by side *)

Module TrimFacts.
Import JsStringFacts RegexFacts.

Lemma trim_start_idemp (s : string) : trim_start (trim_start s) = trim_start s.
Proof.
  apply trim_start_fixed. intros c. apply head_trim_start.
Qed.

Lemma trim_trim_start (s : string) : trim (trim_start s) = trim s.
Proof. unfold trim. now rewrite trim_start_idemp. Qed.

Lemma trim_end_snoc_space (s : string) (c : ascii) :
  is_space c = true -> trim_end (s +:+ String c "") = trim_end s.
Proof.
  intros Hc. induction s as [|d s IH]; [simpl; now rewrite Hc|].
  change (String d s +:+ ?x) with (String d (s +:+ x)).
  cbn [trim_end]. now rewrite IH.
Qed.

Lemma trim_start_snoc (s : string) (c : ascii) :
  trim_start (s +:+ String c "") =
  if all_space s then trim_start (String c "") else trim_start s +:+ String c "".
Proof.
  induction s as [|d s IH]; [reflexivity|].
  change (String d s +:+ ?x) with (String d (s +:+ x)).
  rewrite all_space_cons. cbn [trim_start].
  destruct (is_space d); [exact IH | reflexivity].
Qed.

Lemma trim_start_all_space (s : string) : all_space s = true -> trim_start s = "".
Proof.
  induction s as [|d s IH]; [reflexivity|]. rewrite all_space_cons.
  intros [Hd Hs]%andb_prop. cbn [trim_start]. rewrite Hd. now apply IH.
Qed.

(** The line feed that [strip_final_newline] removes is white space, which
    [trim] removes as well. *)
Lemma trim_strip_final_newline (s : string) : trim (strip_final_newline s) = trim s.
Proof.
  destruct (strip_final_newline_cases s) as [[_ ->] | Hs]; [reflexivity|].
  rewrite Hs at 2. unfold trim. rewrite trim_start_snoc.
  destruct (all_space (strip_final_newline s)) eqn:E.
  - now rewrite (trim_start_all_space _ E).
  - now rewrite trim_end_snoc_space.
Qed.

End TrimFacts.

Section SideBySide.
Import JsStringFacts MarkerFacts StreamFacts RegexFacts TrimFacts NonStream Stream.

(** X16: the two conversions agree on a response with one reasoning
    segment, up to the white space around the visible text.  For the content
    [<think>X</think>Y], with [X] free of markers and [Y] free of opening
    markers, streamed as the fragments [<think>X], [</think>], [Y], the texts
    of the blocks of the non-streaming conversion are the deltas of the
    stream, trimmed, without the blank ones (and the one empty block when
    every delta is blank). *)
Theorem stream_agrees_with_nonstream (messageId model : string)
    (usage : option (gmap string Z)) (X Y : string) :
  marker_free X ->
  includes think_open Y = false ->
  map text (content (antigravityToClaudeResponse messageId
                       (think_open +:+ X +:+ think_close +:+ Y) model usage))
  = match List.filter truthy
            (map trim (deltas (res (stream messageId model
                                      [think_open +:+ X; think_close; Y])))) with
    | [] => [""]
    | t :: l => t :: l
    end.
Proof.
  intros [HXo HXc] HY.
  pose proof (nonstream_blocks_of_segment "" X Y eq_refl HXc) as Hn.
  change ("" +:+ ?x) with x in Hn.
  unfold antigravityToClaudeResponse. cbn [content]. rewrite Hn. clear Hn.
  pose proof (deltas_stream_segment messageId model X [] "" [Y]
                (Forall_nil_2 _) (conj eq_refl eq_refl)
                (Forall_cons_2 _ _ _ HY (Forall_nil_2 _))) as Hs.
  unfold segment in Hs. change ("" +:+ think_close) with think_close in Hs.
  cbn [app] in Hs. rewrite Hs. clear Hs. cbn zeta.
  unfold reasoning_text. cbn [join strip_final_newline].
  rewrite !append_nil_r, trim_strip_final_newline, trim_trim_start.
  destruct (truthy (trim X)) eqn:EX.
  - cbn [app map List.filter]. rewrite trim_idemp, EX.
    destruct Y as [|c Y]; [reflexivity|]. cbn [List.filter truthy map app].
    destruct (truthy (trim (String c Y))); reflexivity.
  - cbn [app]. destruct Y as [|c Y]; [reflexivity|]. cbn [List.filter truthy map app].
    destruct (truthy (trim (String c Y))); reflexivity.
Qed.

Lemma stream_agrees_with_nonstream_witness :
  map text (content (antigravityToClaudeResponse "msg_1"
                       (think_open +:+ " plan " +:+ think_close +:+ " Done. ") "m" None))
  = match List.filter truthy
            (map trim (deltas (res (stream "msg_1" "m"
                                      [think_open +:+ " plan "; think_close; " Done. "])))) with
    | [] => [""]
    | t :: l => t :: l
    end.
Proof.
  apply (stream_agrees_with_nonstream "msg_1" "m" None " plan " " Done. ");
    [split; reflexivity | reflexivity].
Defined.

End SideBySide.

(** ** The whole log of a response *)

Module LogFacts.
Import JsStringFacts StreamFacts Stream.

Lemma writes_only_events (log : list sink_call) :
  Forall (fun c => c <> End) log -> log = map Write (events log).
Proof.
  induction 1 as [|[e|] log Hc _ IH]; [reflexivity | | congruence].
  cbn [events omap list_omap map]. f_equal. exact IH.
Qed.

Lemma writes_only_sendContentBlock (t : string) (h : handler) :
  Forall (fun c => c <> End) (res h) ->
  Forall (fun c => c <> End) (res (sendContentBlock t h)).
Proof.
  intros H. rewrite res_sendContentBlock. repeat (apply Forall_app; split);
    [exact H | destruct (hasContent h); repeat constructor; discriminate
    | repeat constructor; discriminate].
Qed.

Lemma writes_only_handleContent (c : string) (h : handler) :
  Forall (fun c => c <> End) (res h) ->
  Forall (fun c => c <> End) (res (handleContent c h)).
Proof.
  intros H. unfold handleContent.
  destruct (includes think_open c); [exact H|].
  destruct (inThinking h).
  - destruct (includes think_close c); [|exact H]. cbn zeta.
    change (res (set_thinking ?x "" ?b)) with (res x).
    destruct (truthy _); [|exact H]. now apply writes_only_sendContentBlock.
  - destruct (truthy c); [now apply writes_only_sendContentBlock | exact H].
Qed.

Lemma writes_only_run (fragments : list string) (h : handler) :
  Forall (fun c => c <> End) (res h) ->
  Forall (fun c => c <> End) (res (run (map HandleContent fragments) h)).
Proof.
  revert h. induction fragments as [|c l IH]; intros h H; [exact H|].
  cbn [map]. rewrite run_cons. apply IH. now apply writes_only_handleContent.
Qed.

End LogFacts.

Section LogTheorems.
Import JsStringFacts StreamFacts LogFacts Stream.

(** X17: the log of a response is fixed by its deltas: [message_start],
    then, if there is a delta, the block with all the deltas, then
    [message_delta] and [message_stop], all written before the one call of
    [res.end()], which comes last.  A response without delta is these three
    events and the call. *)
Theorem stream_log (messageId model : string) (fragments : list string) :
  res (stream messageId model fragments)
  = map Write (MessageStart messageId model 0 0
               :: block 0 (deltas (res (stream messageId model fragments)))
               ++ [MessageDelta "end_turn" 0; MessageStop])
    ++ [End].
Proof.
  rewrite <- events_stream.
  unfold stream. rewrite run_app, run_app. cbn [run foldl step].
  change (foldl step ?h ?l) with (run l h).
  set (h := run (map HandleContent fragments) _).
  assert (Hw : Forall (fun c => c <> End) (res h)).
  { apply writes_only_run. repeat constructor. discriminate. }
  rewrite res_end.
  set (mid := match flush h with [] => _ | _ :: _ => _ end).
  assert (Hmid : Forall (fun c => c <> End) mid).
  { subst mid. destruct (flush h); destruct (hasContent h);
      repeat constructor; discriminate. }
  change [Write (MessageDelta "end_turn" (totalOutputTokens h)); Write MessageStop; End]
    with ([Write (MessageDelta "end_turn" (totalOutputTokens h)); Write MessageStop]
          ++ [End]).
  rewrite !app_assoc. rewrite events_app. cbn [events omap list_omap].
  rewrite app_nil_r. f_equal. rewrite <- !app_assoc. apply writes_only_events.
  repeat (apply Forall_app; split); [exact Hw | exact Hmid |].
  repeat constructor; discriminate.
Qed.

End LogTheorems.

(** ** The text of a delta in what is sent *)

Module EscapeFacts.
Import JsStringFacts Stream Sse.

Lemma unescape_escape_char (c : ascii) (t : string) :
  unescape (escape_char c +:+ t) = String c (unescape t).
Proof. destruct c as [[] [] [] [] [] [] [] []]; reflexivity. Qed.

Lemma unescape_escape (s t : string) :
  unescape (escape s +:+ t) = s +:+ unescape t.
Proof.
  induction s as [|c s IH]; [reflexivity|].
  cbn [escape]. rewrite append_assoc, unescape_escape_char, IH. reflexivity.
Qed.

Lemma length_append (a b : string) :
  String.length (a +:+ b) = String.length a + String.length b.
Proof. induction a as [|x a IH]; simpl; [reflexivity | now rewrite IH]. Qed.

Lemma escape_inj (s1 s2 t : string) :
  escape s1 +:+ t = escape s2 +:+ t -> s1 = s2.
Proof.
  intros H. apply (f_equal unescape) in H. rewrite !unescape_escape in H.
  revert s2 H. induction s1 as [|c s1 IH]; intros [|d s2] H.
  - reflexivity.
  - apply (f_equal String.length) in H. simpl in H.
    rewrite length_append in H. lia.
  - apply (f_equal String.length) in H. simpl in H.
    rewrite length_append in H. lia.
  - injection H as -> H. f_equal. now apply IH.
Qed.

(** What is sent for a delta, around its escaped text. *)
Lemma sent_delta (index : Z) (text : string) :
  sent (Write (ContentBlockDelta index text))
  = delta_head index +:+ escape text +:+ String double_quote ("}}" +:+ blank_line).
Proof.
  unfold sent, createClaudeStreamEvent, event_lines, data_of, delta_head.
  cbn [event_type stringify map commas fst snd].
  unfold quote.
  generalize (number_to_string index) as N. intros N.
  generalize (escape text) as T. intros T.
  simpl. rewrite !append_assoc. simpl. rewrite ?append_assoc. reflexivity.
Qed.

End EscapeFacts.

Section EscapeTheorems.
Import JsStringFacts Stream Sse EscapeFacts.

(** X18: what is sent for a delta tells its text: two deltas of the same
    block that are sent as the same text have the same text.  The escaping
    of the quote, the backslash and the control characters by
    [JSON.stringify] can be read back. *)
Theorem delta_text_recoverable (index : Z) (text1 text2 : string) :
  sent (Write (ContentBlockDelta index text1))
  = sent (Write (ContentBlockDelta index text2)) ->
  text1 = text2.
Proof.
  rewrite !sent_delta. intros H.
  apply String.app_inj in H. now apply escape_inj in H.
Qed.

Lemma delta_text_recoverable_witness :
  sent (Write (ContentBlockDelta 0 ("a" +:+ String LF "b")))
  = sent (Write (ContentBlockDelta 0 ("a" +:+ String LF "b")))
  /\ ("a" +:+ String LF "b") = ("a" +:+ String LF "b").
Proof.
  split; [reflexivity|].
  apply (delta_text_recoverable 0 ("a" +:+ String LF "b") ("a" +:+ String LF "b")).
  reflexivity.
Defined.

End EscapeTheorems.


(** ** A response with its usage report *)

Module UsageLogFacts.
Import JsStringFacts StreamFacts UsageFacts Stream.

Lemma events_end_feeding (messageId model : string) (h : handler) (i n : Z) :
  feeding messageId model h ->
  events (res (end_ (set_tokens h i n)))
  = MessageStart messageId model 0 0
    :: block 0 (deltas (res h) ++ flush h)
    ++ [MessageDelta "end_turn" n; MessageStop].
Proof.
  intros [Hi Ht Ho He]. rewrite res_end.
  change (flush (set_tokens h i n)) with (flush h).
  change (res (set_tokens h i n)) with (res h).
  change (hasContent (set_tokens h i n)) with (hasContent h).
  change (contentIndex (set_tokens h i n)) with (contentIndex h).
  change (totalOutputTokens (set_tokens h i n)) with n.
  rewrite !events_app, He, Hi.
  destruct (flush h) as [|t [|]] eqn:Ef;
    try (unfold flush in Ef; destruct (_ && _); discriminate).
  - rewrite app_nil_r. destruct (hasContent h) eqn:Ec; rewrite Ho in Ec;
      destruct (deltas (res h)) as [|d ds]; try discriminate; try reflexivity.
    simpl. now rewrite <- app_assoc.
  - destruct (hasContent h) eqn:Ec; rewrite Ho in Ec;
      destruct (deltas (res h)) as [|d ds]; try discriminate.
    + simpl. rewrite map_app, <- !app_assoc. reflexivity.
    + reflexivity.
Qed.

End UsageLogFacts.

Section UsageLogTheorems.
Import JsStringFacts StreamFacts UsageFacts UsageLogFacts Stream.

(** X19: a whole response with a usage report: [start()], fragments, one
    [handleUsage] anywhere among them, [end()].  The events are those of the
    response without the report, with the same deltas, but for the
    [message_delta], which carries the [completion_tokens] of the report
    ([0] when the property is missing). *)
Theorem stream_with_usage (messageId model : string) (before after : list string)
    (usage : gmap string Z) :
  events (res (run ([Start] ++ map HandleContent before ++ [HandleUsage usage]
                    ++ map HandleContent after ++ [EndOp])
                   (constructor [] messageId model)))
  = MessageStart messageId model 0 0
    :: block 0 (deltas (res (stream messageId model (before ++ after))))
    ++ [MessageDelta "end_turn" (or_zero (usage !! "completion_tokens")); MessageStop].
Proof.
  rewrite deltas_stream. cbn zeta.
  rewrite !run_app. cbn [run foldl step].
  change (foldl step ?h ?l) with (run l h).
  rewrite handleUsage_run, <- run_app, <- map_app.
  unfold handleUsage.
  apply events_end_feeding, feeding_run, feeding_start.
Qed.

End UsageLogTheorems.

(** ** Checks of the embedding on concrete inputs *)

Example content_blocks_ws :
  NonStream.content_blocks " x <think> a b
</think>
  y " = [NonStream.text_block "a b"; NonStream.text_block "x y"].
Proof. reflexivity. Qed.

Example scenario_end_to_end :
  Stream.events (Stream.res (Stream.stream "msg_1" "m"
     ["<think>Step "; "1</think>"; "Hello"; " world"])) =
  [Stream.MessageStart "msg_1" "m" 0 0;
   Stream.ContentBlockStart 0 "";
   Stream.ContentBlockDelta 0 "Step 1";
   Stream.ContentBlockDelta 0 "Hello";
   Stream.ContentBlockDelta 0 " world";
   Stream.ContentBlockStop 0;
   Stream.MessageDelta "end_turn" 0;
   Stream.MessageStop].
Proof. reflexivity. Qed.

Example frame_of_delta :
  Sse.sent (Stream.Write (Stream.ContentBlockDelta 0 ("say " +:+ String Sse.double_quote ("hi" +:+ String Sse.double_quote (String LF (String LF "\ ok"))))))
  = "event: content_block_delta" +:+ String LF
      ("data: {" +:+ Sse.quote "type" +:+ ":" +:+ Sse.quote "content_block_delta"
       +:+ "," +:+ Sse.quote "index" +:+ ":0,"
       +:+ Sse.quote "delta" +:+ ":{" +:+ Sse.quote "type" +:+ ":" +:+ Sse.quote "text_delta"
       +:+ "," +:+ Sse.quote "text" +:+ ":"
       +:+ String Sse.double_quote ("say \" +:+ String Sse.double_quote ("hi\" +:+ String Sse.double_quote ("\n\n\\ ok" +:+ String Sse.double_quote "}}")))
       +:+ String LF (String LF "")).
Proof. reflexivity. Qed.
